(** * Photobooth: upload handler, edit handler and client controllers

    A shallow embedding of the TypeScript sources of the repository:

    - [src/app/api/photobooth/upload/route.ts]  (module [Upload]),
    - [src/app/api/photobooth/edit/route.ts]    (module [Edit]),
    - [src/app/dev/edit-test/page.tsx]          (module [EditTest]),
    - the camera page with its countdown        (module [Photobooth]).

    Handlers are written in a small state-and-exception monad over an
    explicit world (file system, clock, entropy, environment, upstream
    provider); the React components are state records with one function
    per event handler.  What the platform decides is a parameter:
    library functions and the failure of a write ([Runtime]), and
    whether React calls an updater function once or twice ([React]).

    A JavaScript string is modelled by the octets of its UTF-8 form.
    The tests the sources make on strings (emptiness, splitting at
    ["."], the separator ["/"]) give the same answers on octets as on
    UTF-16 code units, since both characters are ASCII. *)

From Stdlib.Strings Require Import Ascii String Byte.
From stdpp Require Import base option list strings pretty gmap.

#[local] Set Warnings "-register-all".

Local Open Scope string_scope.
Local Open Scope list_scope.

(** ** JavaScript values shared by the three sources *)

(** A Blob or Buffer is a sequence of octets. *)
Abbreviation bytes := (list byte).

(** What a [catch] clause receives: an [Error] instance with its
    [message], or any other thrown value. *)
Inductive Thrown :=
  | JsError (message : string)
  | JsOther.

(** [err instanceof Error ? err.message : fallback] *)
Definition message_or (fallback : string) (err : Thrown) : string :=
  match err with
  | JsError m => m
  | JsOther => fallback
  end.

(** Result of evaluating an expression: a value or a thrown exception. *)
Inductive Completion (A : Type) :=
  | Normal (a : A)
  | Throw (e : Thrown).
Arguments Normal {A} a.
Arguments Throw {A} e.

(** Parsed JSON, as [res.json()] and [NextResponse.json] see it. *)
Inductive JSON :=
  | JNull
  | JBool (b : bool)
  | JNum (n : Z)
  | JStr (s : string)
  | JArr (items : list JSON)
  | JObj (fields : list (string * JSON)).

(** Truthiness of a string: only the empty string is falsy. *)
Definition truthy (s : string) : bool :=
  match s with
  | EmptyString => false
  | String _ _ => true
  end.

(** [a || b] on strings where [a] may be [undefined]. *)
Definition or_else (a : option string) (b : string) : string :=
  match a with
  | Some s => if truthy s then s else b
  | None => b
  end.

(** [s.split(sep)] for a one-character separator: the pieces between the
    occurrences of [sep]; never the empty array. *)
Fixpoint split (sep : ascii) (s : string) : list string :=
  match s with
  | EmptyString => [EmptyString]
  | String a rest =>
      if Ascii.eqb a sep then EmptyString :: split sep rest
      else match split sep rest with
           | piece :: pieces => String a piece :: pieces
           | [] => [String a EmptyString]
           end
  end.

(** [s.includes(c)] for a character [c]. *)
Fixpoint includes (c : ascii) (s : string) : bool :=
  match s with
  | EmptyString => false
  | String a rest => Ascii.eqb a c || includes c rest
  end.

(** [s.endsWith(c)] for a character [c]. *)
Fixpoint endsWith (c : ascii) (s : string) : bool :=
  match s with
  | EmptyString => false
  | String a EmptyString => Ascii.eqb a c
  | String _ rest => endsWith c rest
  end.



(** [arr.pop()]: the last element, [undefined] on the empty array. *)
Definition pop {A} (arr : list A) : option A := last arr.

(** [parts.join(sep)] *)
Fixpoint join (sep : string) (parts : list string) : string :=
  match parts with
  | [] => ""
  | [p] => p
  | p :: rest => p +:+ sep +:+ join sep rest
  end.

(** A [File] of a multipart form.  The source reads [file.name] through
    [?.], so the name may be [undefined]. *)
Record File := mkFile {
  name : option string;
  type : string;
  octets : bytes;              (* what arrayBuffer() resolves to *)
}.

(** [FormDataEntryValue]: a text field or a file part. *)
Inductive FormDataEntryValue :=
  | FString (s : string)
  | FFile (f : File).

(** [FormData]: the entries in request order; [get] returns the first
    entry of that name or [null]. *)
Definition FormData := list (string * FormDataEntryValue).

Fixpoint form_get (key : string) (form : FormData) : option FormDataEntryValue :=
  match form with
  | [] => None
  | (k, v) :: rest => if String.eqb k key then Some v else form_get key rest
  end.

(** [!file] for [form.get("file")]: [null] and the empty string are
    falsy, every object is truthy. *)
Definition entry_truthy (e : option FormDataEntryValue) : bool :=
  match e with
  | None => false
  | Some (FString s) => truthy s
  | Some (FFile _) => true
  end.

(** A [NextRequest]: [req.formData()] yields the parsed form or throws. *)
Record NextRequest := mkRequest {
  formData : Completion FormData;
}.

(** A [NextResponse]: status, headers and either a JSON or a raw body. *)
Inductive Body :=
  | JsonBody (j : JSON)
  | RawBody (b : bytes).

Record NextResponse := mkResponse {
  status : Z;
  headers : list (string * string);
  body : Body;
}.

(** [response.headers.get(key)] for a key spelled as it was set. *)
Fixpoint header (key : string) (hs : list (string * string)) : option string :=
  match hs with
  | [] => None
  | (k, v) :: rest => if String.eqb k key then Some v else header key rest
  end.

(** [NextResponse.json(value, { status })] *)
Definition NextResponse_json (value : JSON) (st : Z) : NextResponse :=
  mkResponse st [("content-type", "application/json")] (JsonBody value).

Definition error_json (msg : string) : JSON := JObj [("error", JStr msg)].

(** Directories and regular files of a disk, by absolute path. *)
Record FS := mkFS {
  dirs : gset string;
  files : gmap string bytes;
}.

(** ** The runtime the handlers run on

    Library functions of the platform that the sources call and whose
    definition is not part of the repository, and the failures of the
    device the files are on. *)
Class Runtime := {
  (** [String.prototype.toLowerCase] *)
  toLowerCase : string -> string;
  (** [buffer.toString("base64")] *)
  toString_base64 : bytes -> string;
  (** [Buffer.from(text, "base64")] *)
  Buffer_from_base64 : string -> bytes;
  (** largest number of octets one [write] of [fs.writeFile] transfers *)
  kWriteFileMaxChunkSize : positive;
  (** the error one [write] fails with, if it fails (ENOSPC, EIO, ...),
      on a disk in the given state, for the given path and octets *)
  write_error : FS -> string -> bytes -> option Thrown;
}.

(** ** The handler monad: state passing with exceptions *)
Section Monad.
Context {W : Type}.

Definition M (A : Type) : Type := W -> Completion A * W.

Definition ret {A} (a : A) : M A := fun w => (Normal a, w).

Definition throw {A} (e : Thrown) : M A := fun w => (Throw e, w).

Definition bind {A B} (m : M A) (k : A -> M B) : M B :=
  fun w =>
    match m w with
    | (Normal a, w') => k a w'
    | (Throw e, w') => (Throw e, w')
    end.

(** [try { m } catch (err) { handler err }] *)
Definition try_catch {A} (m : M A) (handler : Thrown -> M A) : M A :=
  fun w =>
    match m w with
    | (Normal a, w') => (Normal a, w')
    | (Throw e, w') => handler e w'
    end.

Definition lift {A} (c : Completion A) : M A := fun w => (c, w).

Definition gets {A} (f : W -> A) : M A := fun w => (Normal (f w), w).

Definition modify (f : W -> W) : M unit := fun w => (Normal tt, f w).
End Monad.
Arguments M : clear implicits.

Declare Scope js_scope.
Delimit Scope js_scope with js.
Notation "x <- m ;; k" := (bind m (fun x => k))
  (at level 100, m at next level, right associativity) : js_scope.
Notation "m ;;; k" := (bind m (fun _ => k))
  (at level 100, right associativity) : js_scope.

(** ** POSIX paths, as Node's [path] module computes them *)
Module Path.

Definition isAbsolute (p : string) : bool :=
  match p with
  | String c _ => Ascii.eqb c "/"
  | EmptyString => false
  end.

Definition endsWithSep (p : string) : bool := endsWith "/" p.

(** [normalizeString]: drops empty and ["."] segments and resolves
    [".."] against the segments kept so far ([kept] is in reverse). *)
Fixpoint normalizeString (allowAboveRoot : bool) (segments kept : list string)
  : list string :=
  match segments with
  | [] => rev kept
  | seg :: rest =>
      if String.eqb seg "" || String.eqb seg "." then
        normalizeString allowAboveRoot rest kept
      else if String.eqb seg ".." then
        match kept with
        | top :: below =>
            if String.eqb top ".." then
              normalizeString allowAboveRoot rest
                (if allowAboveRoot then ".." :: kept else kept)
            else normalizeString allowAboveRoot rest below
        | [] =>
            normalizeString allowAboveRoot rest
              (if allowAboveRoot then [".."] else [])
        end
      else normalizeString allowAboveRoot rest (seg :: kept)
  end.

Definition normalize (p : string) : string :=
  if truthy p then
    let abs := isAbsolute p in
    let trailing := endsWithSep p in
    let inner := join "/" (normalizeString (negb abs) (split "/" p) []) in
    if truthy inner then
      (if abs then "/" else "") +:+ inner +:+ (if trailing then "/" else "")
    else if abs then "/"
    else if trailing then "./" else "."
  else ".".

(** [path.join(...args)]: the non-empty arguments joined by ["/"] and
    normalized. *)
Definition join_paths (args : list string) : string :=
  match filter (fun a => truthy a = true) args with
  | [] => "."
  | used => normalize (join "/" used)
  end.

(** The directory a path names an entry of. *)
Definition parent (p : string) : string :=
  let inner := join "/" (removelast (split "/" p)) in
  if truthy inner then inner else if isAbsolute p then "/" else ".".

(** A directory path with all the directories above it, root first. *)
Fixpoint chain (above : string) (segments : list string) : list string :=
  match segments with
  | [] => []
  | seg :: rest =>
      let here := above +:+ "/" +:+ seg in
      here :: chain here rest
  end.

Definition withAncestors (dir : string) : list string :=
  "/" :: chain "" (filter (fun a => truthy a = true) (split "/" dir)).

End Path.

(** ** The file system the upload handler writes to *)

(** [fs.mkdir(dir, { recursive: true })]: creates the directory and the
    missing directories above it; succeeds when they exist already and
    fails when a regular file is in the way. *)
Definition mkdir_recursive (dir : string) (d : FS) : Completion FS :=
  let wanted := Path.withAncestors dir in
  if bool_decide (Exists (fun p => is_Some (files d !! p)) wanted) then
    Throw (JsError ("EEXIST: file already exists, mkdir '" +:+ dir +:+ "'"))
  else Normal (mkFS (dirs d ∪ list_to_set wanted) (files d)).

(** [open(path, "w")]: creates the file or truncates it to length zero.
    The directory of the entry has to exist, and the path may not name
    a directory. *)
Definition open_w (p : string) (d : FS) : Completion FS :=
  if bool_decide (Path.parent p ∈ dirs d) then
    if bool_decide (p ∈ dirs d) || Path.endsWithSep p then
      Throw (JsError ("EISDIR: illegal operation on a directory, open '" +:+ p +:+ "'"))
    else Normal (mkFS (dirs d) (<[p := []]> (files d)))
  else Throw (JsError ("ENOENT: no such file or directory, open '" +:+ p +:+ "'")).

(** One [write] on the open file: the octets go after those written so
    far. *)
Definition write_chunk (p : string) (chunk : bytes) (d : FS) : FS :=
  mkFS (dirs d) (<[p := default [] (files d !! p) ++ chunk]> (files d)).

(** The pieces [fs.writeFile] hands to [write], each of at most [size]
    octets ([size] is positive). *)
Fixpoint chunks_upto (fuel size : nat) (data : bytes) : list bytes :=
  match fuel, data with
  | S fuel', _ :: _ => take size data :: chunks_upto fuel' size (drop size data)
  | _, _ => []
  end.

Definition chunks {rt : Runtime} (data : bytes) : list bytes :=
  chunks_upto (length data) (Pos.to_nat kWriteFileMaxChunkSize) data.

(** ** Upload handler: [src/app/api/photobooth/upload/route.ts] *)
Module Upload.

(** What the handler reads and changes.  [observable] lists, oldest
    first, every state the file system went through, which is what
    another process reading the disk meanwhile can have seen. *)
Record World := mkWorld {
  cwd : string;                (* process.cwd(), an absolute path *)
  clock : Z;                   (* what Date.now() returns *)
  entropy : nat -> string;     (* the values randomUUID() returns, in order *)
  drawn : nat;                 (* how many of them were taken *)
  disk : FS;
  observable : list FS;
  console : list Thrown;       (* console.error *)
}.

Definition set_disk (d : FS) (w : World) : World :=
  mkWorld (cwd w) (clock w) (entropy w) (drawn w) d (observable w ++ [d]) (console w).

Definition Date_now : M World Z := gets clock.

Definition randomUUID : M World string :=
  fun w =>
    (Normal (entropy w (drawn w)),
     mkWorld (cwd w) (clock w) (entropy w) (S (drawn w)) (disk w) (observable w) (console w)).

Definition console_error (err : Thrown) : M World unit :=
  modify (fun w =>
    mkWorld (cwd w) (clock w) (entropy w) (drawn w) (disk w) (observable w) (console w ++ [err])).

Definition fs_mkdir (dir : string) : M World unit :=
  fun w =>
    match mkdir_recursive dir (disk w) with
    | Normal d => (Normal tt, set_disk d w)
    | Throw e => (Throw e, w)
    end.

Definition fs_open (p : string) : M World unit :=
  fun w =>
    match open_w p (disk w) with
    | Normal d => (Normal tt, set_disk d w)
    | Throw e => (Throw e, w)
    end.

(** One [write] on the open file: it fails and leaves the disk as it
    is, or the octets are appended. *)
Definition fs_write {rt : Runtime} (p : string) (chunk : bytes) : M World unit :=
  fun w =>
    match write_error (disk w) p chunk with
    | Some e => (Throw e, w)
    | None => (Normal tt, set_disk (write_chunk p chunk (disk w)) w)
    end.

Fixpoint fs_write_all {rt : Runtime} (p : string) (pieces : list bytes) : M World unit :=
  match pieces with
  | [] => ret tt
  | piece :: rest => bind (fs_write p piece) (fun _ => fs_write_all p rest)
  end.

(** [fs.writeFile(path, buffer)]: opens [path] itself for writing and
    writes the buffer piece by piece; the first [write] that fails ends
    it, with what was written before left in the file. *)
Definition fs_writeFile {rt : Runtime} (p : string) (buffer : bytes) : M World unit :=
  bind (fs_open p) (fun _ => fs_write_all p (chunks buffer)).

(** [file.arrayBuffer()] on the value of the [file] field, which the
    source casts to [File]: a text field has no such method. *)
Definition arrayBuffer (file : FormDataEntryValue) : M World bytes :=
  match file with
  | FFile f => ret (octets f)
  | FString _ => throw (JsError "file.arrayBuffer is not a function")
  end.

(** [file.name?.split(".").pop()] *)
Definition last_segment (file : FormDataEntryValue) : option string :=
  match file with
  | FFile f => n ← name f; pop (split "." n)
  | FString s => None
  end.

(** [(file.name?.split(".").pop() || "png").toLowerCase()] *)
Definition extension {rt : Runtime} (file : FormDataEntryValue) : string :=
  toLowerCase (or_else (last_segment file) "png").

(** Whether [||] takes its right operand, the literal ["png"]. *)
Definition falls_back (file : FormDataEntryValue) : bool :=
  match last_segment file with
  | Some seg => negb (truthy seg)
  | None => true
  end.

Definition uploadsDir (cwd : string) : string :=
  Path.join_paths [cwd; "public"; "uploads"].

(** [`${Date.now()}-${randomUUID()}.${ext}`] *)
Definition stored_name (now : Z) (uuid ext : string) : string :=
  pretty now +:+ "-" +:+ uuid +:+ "." +:+ ext.

(** A state of the disk in which only the file at [p] may differ from
    [before], and holds a prefix of [data] there. *)
Definition shows_prefix (p : string) (data : bytes) (before d : FS) : Prop :=
  (exists c, files d !! p = Some c /\ c `prefix_of` data) /\
  (forall q, q <> p -> files d !! q = files before !! q).

(** A state of the disk whose files are those of [before]. *)
Definition same_files (before d : FS) : Prop :=
  forall q, files d !! q = files before !! q.

(** The path the handler writes to in world [w]: [filepath]. *)
Definition final_path {rt : Runtime} (w : World) (file : FormDataEntryValue) : string :=
  Path.join_paths
    [uploadsDir (cwd w);
     stored_name (clock w) (entropy w (drawn w)) (extension file)].

Local Open Scope js_scope.

Definition POST {rt : Runtime} (req : NextRequest) : M World NextResponse :=
  try_catch
    (form <- lift (formData req) ;;
     match form_get "file" form with
     | Some file =>
         if entry_truthy (Some file) then
           buffer <- arrayBuffer file ;;
           dir <- gets (fun w => uploadsDir (cwd w)) ;;
           fs_mkdir dir ;;;
           let ext := extension file in
           now <- Date_now ;;
           uuid <- randomUUID ;;
           let filename := stored_name now uuid ext in
           let filepath := Path.join_paths [dir; filename] in
           fs_writeFile filepath buffer ;;;
           let url := "/uploads/" +:+ filename in
           ret (NextResponse_json (JObj [("url", JStr url)]) 200)
         else ret (NextResponse_json (error_json "Missing file") 400)
     | None => ret (NextResponse_json (error_json "Missing file") 400)
     end)
    (fun err =>
       let message := message_or "Upload failed" err in
       console_error err ;;;
       ret (NextResponse_json (error_json message) 500)).

End Upload.

(** ** Edit handler: [src/app/api/photobooth/edit/route.ts] *)
Module Edit.

(** [InlineImagePart] and the shapes of the provider's SDK around it;
    an optional field is [None] when it is [undefined]. *)
Record InlineData := mkInlineData {
  mimeType : option string;
  data : option string;        (* base64 *)
}.

Record Part := mkPart {
  inlineData : option InlineData;
  text : option string;
}.

Record Content := mkContent {
  role : option string;
  parts : option (list Part);
}.

Record Candidate := mkCandidate {
  content : option Content;
}.

Record GenerateContentResponse := mkGenResponse {
  candidates : option (list Candidate);
}.

Record GenerateContentParameters := mkGenParams {
  model : string;
  contents : list Content;
}.

(** One invocation of the provider: the key the client was built
    with and the parameters of [generateContent]. *)
Record Invocation := mkInvocation {
  apiKey : string;
  params : GenerateContentParameters;
}.

Record World := mkWorld {
  GEMINI_API_KEY : option string;      (* process.env.GEMINI_API_KEY *)
  provider : Invocation -> Completion GenerateContentResponse;
  invocations : list Invocation;       (* calls made to the provider *)
  console : list Thrown;
}.

Definition console_error (err : Thrown) : M World unit :=
  modify (fun w =>
    mkWorld (GEMINI_API_KEY w) (provider w) (invocations w) (console w ++ [err])).

(** [new GoogleGenAI({ apiKey }).models.generateContent(params)] *)
Definition generateContent (key : string) (p : GenerateContentParameters)
  : M World GenerateContentResponse :=
  fun w =>
    let call := mkInvocation key p in
    (provider w call,
     mkWorld (GEMINI_API_KEY w) (provider w) (invocations w ++ [call]) (console w)).

(** [String(form.get("instruction") ?? "")] *)
Definition instruction_of (form : FormData) : string :=
  match form_get "instruction" form with
  | None => ""
  | Some (FString s) => s
  | Some (FFile _) => "[object File]"
  end.

(** [fileToBase64]: a text field cast to [File] has no [arrayBuffer]. *)
Definition fileToBase64 {rt : Runtime} (file : FormDataEntryValue) : M World string :=
  match file with
  | FFile f => ret (toString_base64 (octets f))
  | FString _ => throw (JsError "file.arrayBuffer is not a function")
  end.

(** [file.type] *)
Definition type_of (file : FormDataEntryValue) : option string :=
  match file with
  | FFile f => Some (type f)
  | FString _ => None
  end.

(** The single user turn sent upstream: the image, then the text. *)
Definition user_turn (mime base64 instruction : string) : Content :=
  mkContent (Some "user")
    (Some [ mkPart (Some (mkInlineData (Some mime) (Some base64))) None;
            mkPart None (Some instruction) ]).

(** The call [POST] makes for file [f] and instruction [text]. *)
Definition upstream_call {rt : Runtime} (key : string) (f : File) (text : string)
  : Invocation :=
  mkInvocation key
    (mkGenParams "gemini-2.5-flash-image"
       [user_turn (or_else (Some (type f)) "image/jpeg")
          (toString_base64 (octets f)) text]).

Definition no_image : NextResponse :=
  NextResponse_json (error_json "No image returned from model") 502.

(** [response.candidates?.[0]?.content?.parts ?? []] *)
Definition parts_of (response : GenerateContentResponse) : list Part :=
  default [] (cs ← candidates response; c ← head cs; k ← content c; parts k).

(** [p.inlineData?.data] *)
Definition inline_data (p : Part) : option string :=
  i ← inlineData p; data i.

(** [p.inlineData?.data !== undefined] *)
Definition has_data (p : Part) : bool :=
  match inline_data p with
  | Some _ => true
  | None => false
  end.

(** A part whose inline data is present and not empty. *)
Definition has_payload (p : Part) : bool :=
  match inline_data p with
  | Some d => truthy d
  | None => false
  end.

(** [parts.find(pred)]: the first element that satisfies [pred]. *)
Fixpoint find_part (pred : Part -> bool) (ps : list Part) : option Part :=
  match ps with
  | [] => None
  | p :: rest => if pred p then Some p else find_part pred rest
  end.

(** [new NextResponse(bytes, { status: 200, headers })] *)
Definition image_response (payload : bytes) (contentType : string) : NextResponse :=
  mkResponse 200
    [("Content-Type", contentType); ("Cache-Control", "no-store")]
    (RawBody payload).

(** Lines 63 to 85: from the provider's response to the reply. *)
Definition relay {rt : Runtime} (response : GenerateContentResponse) : NextResponse :=
  let imgPart := find_part has_data (parts_of response) in
  match imgPart with
  | Some p =>
      match inlineData p with
      | Some i =>
          match data i with
          | Some outBase64 =>
              if truthy outBase64 then
                image_response (Buffer_from_base64 outBase64)
                  (or_else (mimeType i) "image/png")
              else no_image
          | None => no_image
          end
      | None => no_image
      end
  | None => no_image
  end.

Local Open Scope js_scope.

Definition POST {rt : Runtime} (req : NextRequest) : M World NextResponse :=
  try_catch
    (form <- lift (formData req) ;;
     let file := form_get "file" form in
     let instruction := instruction_of form in
     match file with
     | Some f =>
         if negb (entry_truthy file) then
           ret (NextResponse_json (error_json "Missing file") 400)
         else if negb (truthy instruction) then
           ret (NextResponse_json (error_json "Missing instruction") 400)
         else
           configured <- gets GEMINI_API_KEY ;;
           match configured with
           | Some key =>
               if negb (truthy key) then
                 ret (NextResponse_json (error_json "Missing GEMINI_API_KEY") 500)
               else
                 base64 <- fileToBase64 f ;;
                 response <- generateContent key
                   (mkGenParams "gemini-2.5-flash-image"
                      [user_turn (or_else (type_of f) "image/jpeg") base64 instruction]) ;;
                 ret (relay response)
           | None => ret (NextResponse_json (error_json "Missing GEMINI_API_KEY") 500)
           end
     | None => ret (NextResponse_json (error_json "Missing file") 400)
     end)
    (fun err =>
       console_error err ;;;
       let message := message_or "Server error" err in
       ret (NextResponse_json (error_json message) 500)).

End Edit.

(** ** Client controller of the test page: [src/app/dev/edit-test/page.tsx] *)
Module EditTest.

(** What [fetch] resolves to, as far as the page looks at it:
    [res.ok], the outcome of [res.json()] ([None] when it throws) and
    the outcome of [res.blob()], the octets of the body or a
    rejection.  [await fetch(...)] itself yields a [Completion
    Response]: it rejects when the request fails on the network. *)
Record Response := mkResponse {
  ok : bool;
  json : option JSON;
  blob : Completion bytes;
}.

(** [safeJson]: the parsed body, [null] when parsing throws. *)
Definition safeJson (res : Response) : JSON := default JNull (json res).

(** [key in x] for a parsed JSON value that is a non-null object. *)
Fixpoint field (key : string) (fields : list (string * JSON)) : option JSON :=
  match fields with
  | [] => None
  | (k, v) :: rest => if String.eqb k key then Some v else field key rest
  end.

(** [x.key]: [undefined] for [null], for primitives, for arrays and
    for objects without that key. *)
Definition get (key : string) (x : JSON) : option JSON :=
  match x with
  | JObj fields => field key fields
  | _ => None
  end.

(** [typeof x === "object" && x !== null && "error" in x] *)
Definition isApiError (x : JSON) : bool :=
  match get "error" x with
  | Some _ => true
  | None => false
  end.

(** [typeof x === "object" && x !== null && "url" in x] *)
Definition isUploadOk (x : JSON) : bool :=
  match get "url" x with
  | Some _ => true
  | None => false
  end.

(** [a ?? b]: [b] when [a] is [undefined] or [null]. *)
Definition nullish_or (a : option JSON) (b : JSON) : JSON :=
  match a with
  | None | Some JNull => b
  | Some v => v
  end.

Inductive Loading := upload | edit.

(** The five [useState] cells of [PhotoboothTest]; [null] is [None]
    for the typed cells and [JNull] for the two that receive values
    taken from a response. *)
Record State := mkState {
  file : option File;
  instruction : string;
  loading : option Loading;
  resultUrl : JSON;
  error : JSON;
}.

Definition setLoading (v : option Loading) (s : State) : State :=
  mkState (file s) (instruction s) v (resultUrl s) (error s).
Definition setResultUrl (v : JSON) (s : State) : State :=
  mkState (file s) (instruction s) (loading s) v (error s).
Definition setError (v : JSON) (s : State) : State :=
  mkState (file s) (instruction s) (loading s) (resultUrl s) v.

(** The form a handler sends: the file it saw when it was called. *)
Definition upload_form (f : File) : FormData := [("file", FFile f)].
Definition edit_form (f : File) (text : string) : FormData :=
  [("file", FFile f); ("instruction", FString text)].

Section Handlers.
(** [URL.createObjectURL] *)
Variable createObjectURL : bytes -> string.

(** [saveLocally] up to the [await fetch]: lines 59 to 62. *)
Definition saveLocally_begin (s : State) : State :=
  setResultUrl JNull (setError JNull (setLoading (Some upload) s)).

(** [saveLocally] after the response arrived: lines 68 to 81. *)
Definition saveLocally_settle (res : Response) (s : State) : State :=
  let data := safeJson res in
  if negb (ok res) then
    setLoading None
      (setError (if isApiError data then default JNull (get "error" data)
                 else JStr "Upload failed") s)
  else if isUploadOk data then
    setLoading None (setResultUrl (default JNull (get "url" data)) s)
  else setLoading None (setError (JStr "Upload failed") s).

(** [saveLocally].  Nothing catches a rejection of [await fetch]:
    the function ends there, with the cells as they were set before
    the request. *)
Definition saveLocally (fetched : Completion Response) (s : State) : State :=
  match file s with
  | None => s
  | Some _ =>
      match fetched with
      | Normal res => saveLocally_settle res (saveLocally_begin s)
      | Throw _ => saveLocally_begin s
      end
  end.

(** [editWithGemini] up to the [await fetch]: lines 85 to 88. *)
Definition editWithGemini_begin (s : State) : State :=
  setResultUrl JNull (setError JNull (setLoading (Some edit) s)).

(** [editWithGemini] after the response arrived: lines 95 to 106.
    Nothing catches a rejection of [await res.blob()] either. *)
Definition editWithGemini_settle (res : Response) (s : State) : State :=
  if negb (ok res) then
    let data := safeJson res in
    setLoading None
      (setError (nullish_or (get "error" data)
                   (JStr "Edit failed (check your /api/photobooth/edit backend)")) s)
  else
    match blob res with
    | Normal octets =>
        let url := createObjectURL octets in
        setLoading None (setResultUrl (JStr url) s)
    | Throw _ => s
    end.

(** [editWithGemini]; a rejection of [await fetch] ends it as it ends
    [saveLocally]. *)
Definition editWithGemini (fetched : Completion Response) (s : State) : State :=
  match file s with
  | None => s
  | Some _ =>
      match fetched with
      | Normal res => editWithGemini_settle res (editWithGemini_begin s)
      | Throw _ => editWithGemini_begin s
      end
  end.
End Handlers.

End EditTest.

(** ** React

    How React runs the component.  Under [<StrictMode>] in a
    development build it calls every updater function handed to a
    state setter twice, with the same argument; otherwise it calls it
    once. *)
Class React := {
  strictMode : bool;
}.

Definition updater_runs {react : React} : nat :=
  if strictMode then 2 else 1.

(** ** Camera page: the countdown of [PhotoboothTest] *)
Module Photobooth.

(** The cells and refs the countdown touches, and the part of the
    browser it talks to: the intervals that are set ([intervals], by
    id), the id [setInterval] hands out next, and how often
    [captureFrame] was called.  A handler reads the cells as the last
    render left them. *)
Record State := mkState {
  cameraActive : bool;
  cameraError : option string;
  countdown : option nat;
  isCountingDown : bool;
  streamRef : bool;                  (* streamRef.current is not null *)
  videoRef : bool;                   (* videoRef.current is not null *)
  countdownTimer : option positive;  (* countdownTimer.current *)
  intervals : list positive;
  nextId : positive;
  captures : nat;
}.

(** [window.clearInterval(id)] *)
Definition clearInterval (id : positive) (s : State) : State :=
  mkState (cameraActive s) (cameraError s) (countdown s) (isCountingDown s)
    (streamRef s) (videoRef s) (countdownTimer s)
    (filter (fun i => i ≠ id) (intervals s)) (nextId s) (captures s).

(** [if (countdownTimer.current) window.clearInterval(countdownTimer.current)] *)
Definition clear_pending (s : State) : State :=
  match countdownTimer s with
  | Some id => clearInterval id s
  | None => s
  end.

(** [countdownTimer.current = window.setInterval(callback, 1000)] *)
Definition setInterval_into_ref (s : State) : State :=
  mkState (cameraActive s) (cameraError s) (countdown s) (isCountingDown s)
    (streamRef s) (videoRef s) (Some (nextId s))
    (intervals s ++ [nextId s]) (Pos.succ (nextId s)) (captures s).

(** [countdownTimer.current = v] *)
Definition setTimerRef (v : option positive) (s : State) : State :=
  mkState (cameraActive s) (cameraError s) (countdown s) (isCountingDown s)
    (streamRef s) (videoRef s) v
    (intervals s) (nextId s) (captures s).

Definition setCameraError (v : option string) (s : State) : State :=
  mkState (cameraActive s) v (countdown s) (isCountingDown s)
    (streamRef s) (videoRef s) (countdownTimer s)
    (intervals s) (nextId s) (captures s).

Definition setCounting (counting : bool) (count : option nat) (s : State) : State :=
  mkState (cameraActive s) (cameraError s) count counting
    (streamRef s) (videoRef s) (countdownTimer s)
    (intervals s) (nextId s) (captures s).

(** [captureFrame()] is called. *)
Definition captureFrame (s : State) : State :=
  mkState (cameraActive s) (cameraError s) (countdown s) (isCountingDown s)
    (streamRef s) (videoRef s) (countdownTimer s)
    (intervals s) (nextId s) (S (captures s)).

Definition startCountdown (s : State) : State :=
  if negb (streamRef s) || negb (videoRef s) then
    setCameraError (Some "Enable the camera first.") s
  else if isCountingDown s then s
  else setInterval_into_ref (setCounting true (Some 5) (clear_pending s)).

(** The updater handed to [setCountdown], called with [prev]: lines
    334 to 346.  What it does besides returning the new count, it does
    each time it is called. *)
Definition countdown_updater (prev : option nat) (s : State) : State :=
  match prev with
  | None | Some 0 => s
  | Some (S n as prev) =>
      if bool_decide (prev <= 1) then
        let s :=
          match countdownTimer s with
          | Some id => setTimerRef None (clearInterval id s)
          | None => s
          end in
        captureFrame (setCounting false None s)
      else setCounting (isCountingDown s) (Some (prev - 1)) s
  end.

(** The function handed to [setInterval]: lines 333 to 346.  It hands
    the updater to [setCountdown], and React calls the updater with the
    count the cell holds, once or twice. *)
Definition on_interval {react : React} (s : State) : State :=
  Nat.iter updater_runs (countdown_updater (countdown s)) s.

(** One second passes: the browser runs the callback of every
    interval that is still set when its turn comes. *)
Definition fire {react : React} (id : positive) (s : State) : State :=
  if bool_decide (id ∈ intervals s) then on_interval s else s.

Definition tick {react : React} (s : State) : State :=
  foldl (fun acc id => fire id acc) s (intervals s).

(** [cleanupCamera] *)
Definition cleanupCamera (s : State) : State :=
  mkState false (cameraError s) (countdown s) (isCountingDown s)
    false (videoRef s) (countdownTimer s)
    (intervals s) (nextId s) (captures s).

(** [requestCamera] when the browser grants the stream. *)
Definition cameraGranted (s : State) : State :=
  mkState true None (countdown s) (isCountingDown s)
    true (videoRef s) (countdownTimer s)
    (intervals s) (nextId s) (captures s).

(** [toggleCamera] *)
Definition toggleCamera (s : State) : State :=
  if cameraActive s then cleanupCamera s else cameraGranted s.

(** Rendering mounts the [<video>] element exactly when the camera is
    active, which sets or clears [videoRef.current]. *)
Definition render (s : State) : State :=
  mkState (cameraActive s) (cameraError s) (countdown s) (isCountingDown s)
    (streamRef s) (cameraActive s) (countdownTimer s)
    (intervals s) (nextId s) (captures s).

(** The cleanup of the mount effect: lines 266 to 274. *)
Definition unmount (s : State) : State :=
  clear_pending (cleanupCamera s).

(** What can happen to the mounted component: a call of
    [startCountdown], a second passing, a click on the camera
    toggle.  The component renders after each. *)
Inductive Event := StartCountdown | Tick | ToggleCamera.

Definition step {react : React} (s : State) (e : Event) : State :=
  render
    match e with
    | StartCountdown => startCountdown s
    | Tick => tick s
    | ToggleCamera => toggleCamera s
    end.

Definition run {react : React} (s : State) (events : list Event) : State :=
  foldl step s events.

(** The state after the first render. *)
Definition initial : State :=
  mkState false None None false false false None [] 1%positive 0.

(** The seconds that pass in a list of events. *)
Fixpoint ticks (events : list Event) : nat :=
  match events with
  | [] => 0
  | Tick :: rest => S (ticks rest)
  | _ :: rest => ticks rest
  end.

(** No countdown is active, no interval is set, and [captureFrame]
    was called [k] times. *)
Definition idle_at (k : nat) (s : State) : Prop :=
  isCountingDown s = false /\ countdown s = None /\
  countdownTimer s = None /\ intervals s = [] /\ captures s = k.

(** A countdown is active and shows [c]; the one interval that is set
    is [id], the one the ref holds. *)
Definition counting_at (c : nat) (id : positive) (k : nat) (s : State) : Prop :=
  isCountingDown s = true /\ countdown s = Some c /\
  countdownTimer s = Some id /\ intervals s = [id] /\ captures s = k.

(** A handler leaves the countdown alone. *)
Definition same_countdown (s s' : State) : Prop :=
  isCountingDown s' = isCountingDown s /\ countdown s' = countdown s /\
  countdownTimer s' = countdownTimer s /\ intervals s' = intervals s /\
  captures s' = captures s.

(** What holds after every event: no countdown and no interval, or a
    countdown with exactly one interval, the one in the ref. *)
Definition consistent (s : State) : Prop :=
  exists k, idle_at k s \/ exists c id, counting_at (S c) id k s.

End Photobooth.

(** ** A reference runtime and the two ways React runs the page

    ASCII lower-casing, RFC 4648 base64 and Node's chunk size of 512 KiB:
    an instance of [Runtime] on which the handlers can be run. *)
Module Reference.

Definition lower (c : ascii) : ascii :=
  let n := N_of_ascii c in
  if (65 <=? n)%N && (n <=? 90)%N then ascii_of_N (n + 32) else c.

Fixpoint lowercase (s : string) : string :=
  match s with
  | EmptyString => EmptyString
  | String c rest => String (lower c) (lowercase rest)
  end.

Definition alphabet : string :=
  "ABCDEFGHIJKLMNOPQRSTUVWXYZabcdefghijklmnopqrstuvwxyz0123456789+/".

Definition digit (n : N) : ascii :=
  default "="%char (String.get (N.to_nat n) alphabet).

(** The value of a base64 digit, [None] for any other character. *)
Definition value (c : ascii) : option N :=
  let n := N_of_ascii c in
  if (65 <=? n)%N && (n <=? 90)%N then Some (n - 65)%N
  else if (97 <=? n)%N && (n <=? 122)%N then Some (n - 71)%N
  else if (48 <=? n)%N && (n <=? 57)%N then Some (n + 4)%N
  else if (n =? 43)%N then Some 62%N
  else if (n =? 47)%N then Some 63%N
  else None.

Definition octet (n : N) : byte := default "000"%byte (Byte.of_N (n mod 256)).

Fixpoint encode (b : bytes) : string :=
  match b with
  | [] => ""
  | [x] =>
      let n := (Byte.to_N x * 65536)%N in
      String (digit (n / 262144)) (String (digit (n / 4096 mod 64)) "==")
  | [x; y] =>
      let n := (Byte.to_N x * 65536 + Byte.to_N y * 256)%N in
      String (digit (n / 262144)) (String (digit (n / 4096 mod 64))
        (String (digit (n / 64 mod 64)) "="))
  | x :: y :: z :: rest =>
      let n := (Byte.to_N x * 65536 + Byte.to_N y * 256 + Byte.to_N z)%N in
      String (digit (n / 262144)) (String (digit (n / 4096 mod 64))
        (String (digit (n / 64 mod 64)) (String (digit (n mod 64)) (encode rest))))
  end.

(** The digits of a text up to the first padding character; other
    characters are skipped. *)
Fixpoint digits (s : string) : list N :=
  match s with
  | EmptyString => []
  | String c rest =>
      if Ascii.eqb c "=" then []
      else match value c with
           | Some v => v :: digits rest
           | None => digits rest
           end
  end.

Fixpoint pack (ds : list N) : bytes :=
  match ds with
  | a :: b :: c :: d :: rest =>
      let n := (a * 262144 + b * 4096 + c * 64 + d)%N in
      octet (n / 65536) :: octet (n / 256) :: octet n :: pack rest
  | [a; b; c] =>
      let n := (a * 262144 + b * 4096 + c * 64)%N in
      [octet (n / 65536); octet (n / 256)]
  | [a; b] =>
      let n := (a * 262144 + b * 4096)%N in
      [octet (n / 65536)]
  | _ => []
  end.

Definition decode (s : string) : bytes := pack (digits s).

#[global] Instance runtime : Runtime := {|
  toLowerCase := lowercase;
  toString_base64 := encode;
  Buffer_from_base64 := decode;
  kWriteFileMaxChunkSize := 524288;
  write_error := fun _ _ _ => None;
|}.

(** The same runtime on a device that takes no octet: every [write]
    fails with ENOSPC. *)
Definition full_disk : Runtime := {|
  toLowerCase := lowercase;
  toString_base64 := encode;
  Buffer_from_base64 := decode;
  kWriteFileMaxChunkSize := 524288;
  write_error := fun _ _ _ => Some (JsError "ENOSPC: no space left on device, write");
|}.

(** A production build: updaters are called once. *)
#[global] Instance production : React := {| strictMode := false |}.

(** A development build under [<StrictMode>]. *)
Definition development : React := {| strictMode := true |}.

End Reference.

(** ** Sample inputs on the reference runtime *)
Module Samples.

(** The four octets a PNG file starts with. *)
Definition png_signature : bytes := [x89; x50; x4e; x47].

Definition uuid : string := "1b9d6bcd-bbfd-4b2d-9b5d-ab8dfbbd4bed".

(** A server started in [/app] with nothing on its disk. *)
Definition upload_world : Upload.World :=
  Upload.mkWorld "/app" 1700000000000 (fun _ => uuid) 0 (mkFS ∅ ∅) [] [].

(** A provider that answers every call with [response]. *)
Definition edit_world (key : option string) (response : Edit.GenerateContentResponse)
  : Edit.World :=
  Edit.mkWorld key (fun _ => Normal response) [] [].

(** A response with one candidate that has the given parts. *)
Definition answer (ps : list Edit.Part) : Edit.GenerateContentResponse :=
  Edit.mkGenResponse (Some [Edit.mkCandidate (Some (Edit.mkContent (Some "model") (Some ps)))]).

Definition image_part (mime : option string) (payload : string) : Edit.Part :=
  Edit.mkPart (Some (Edit.mkInlineData mime (Some payload))) None.

Definition text_part (t : string) : Edit.Part := Edit.mkPart None (Some t).

(** Two parts with inline data, the first with an empty payload. *)
Definition empty_then_image : Edit.GenerateContentResponse :=
  answer [image_part (Some "image/png") ""; image_part (Some "image/png") "iVBORw=="].

Definition photo (filename : string) : File :=
  mkFile (Some filename) "image/png" png_signature.

(** The request the test page sends to the upload handler. *)
Definition upload_of (filename : string) : NextRequest :=
  mkRequest (Normal (EditTest.upload_form (photo filename))).

(** The request the test page sends to the edit handler. *)
Definition edit_of (filename instruction : string) : NextRequest :=
  mkRequest (Normal (EditTest.edit_form (photo filename) instruction)).

(** The test page with [photo.png] selected and a result on display. *)
Definition page_with_result : EditTest.State :=
  EditTest.mkState (Some (photo "photo.png")) "Corporate headshot."
    None (JStr "/uploads/old.png") JNull.

(** A 500 answer of a handler. *)
Definition failure (message : string) : EditTest.Response :=
  EditTest.mkResponse false (Some (error_json message)) (Normal []).

(** What a reader of [path] finds in each state of the disk that a
    run of the upload handler went through. *)
Definition readings (path : string) (w : Upload.World) : list (option bytes) :=
  map (fun d => files d !! path) (Upload.observable w).

End Samples.

(** ** Between a handler and the page: what [fetch] resolves to *)
Module Wire.

Section Fetch.
(** [res.json()] on a body that was sent as raw octets, and the octets
    [NextResponse.json] sends for a value. *)
Variable parse : bytes -> option JSON.
Variable stringify : JSON -> bytes.

(** The response the page holds after [await fetch(...)] when the
    reply [r] of the handler arrived whole: [res.ok] is a status from
    200 to 299, a body sent by [NextResponse.json] parses back to the
    value sent, and [res.blob()] yields the octets of the body. *)
Definition received (r : NextResponse) : EditTest.Response :=
  EditTest.mkResponse
    ((200 <=? status r)%Z && (status r <=? 299)%Z)
    (match body r with
     | JsonBody j => Some j
     | RawBody b => parse b
     end)
    (Normal (match body r with
             | JsonBody j => stringify j
             | RawBody b => b
             end)).
End Fetch.

End Wire.

(** ** Camera page: the whole component [PhotoboothTest] *)
Module Booth.

(** [PRESETS]: label and text. *)
Definition PRESETS : list (string * string) :=
  [ ("Gov / Civil Service",
     "Formal Thai government ID photo. Black suit jacket, white dress shirt, conservative tie; neat short haircut. Keep same face/identity. Plain blue background, even lighting.");
    ("Corporate",
     "Corporate headshot. Dark blazer, white shirt, neutral light-gray background. Clean flyaway hair; keep same face/identity; natural skin tone.");
    ("Student ID",
     "Student ID photo. collared shirt, tidy hair, plain white background. Keep same face/identity and proportions.") ].

(** The cells of the component that the countdown does not touch, and
    the countdown's own ([camera]).  [loading] is [true] for ["edit"]. *)
Record Page := mkPage {
  file : option File;
  presetIndex : nat;
  loading : bool;
  resultUrl : JSON;
  error : JSON;
  camera : Photobooth.State;
}.

(** [PRESETS[presetIndex].text]; there is no text when the index is out
    of range (reading [text] of [undefined] throws). *)
Definition instruction (p : Page) : option string :=
  snd <$> (PRESETS !! presetIndex p).

Definition setFile (v : option File) (p : Page) : Page :=
  mkPage v (presetIndex p) (loading p) (resultUrl p) (error p) (camera p).
Definition setPresetIndex (v : nat) (p : Page) : Page :=
  mkPage (file p) v (loading p) (resultUrl p) (error p) (camera p).
Definition setLoading (v : bool) (p : Page) : Page :=
  mkPage (file p) (presetIndex p) v (resultUrl p) (error p) (camera p).
Definition setResultUrl (v : JSON) (p : Page) : Page :=
  mkPage (file p) (presetIndex p) (loading p) v (error p) (camera p).
Definition setError (v : JSON) (p : Page) : Page :=
  mkPage (file p) (presetIndex p) (loading p) (resultUrl p) v (camera p).
Definition setCamera (v : Photobooth.State) (p : Page) : Page :=
  mkPage (file p) (presetIndex p) (loading p) (resultUrl p) (error p) v.

(** [setFile(f); setResultUrl(null); setError(null)] *)
Definition select (f : File) (p : Page) : Page :=
  setError JNull (setResultUrl JNull (setFile (Some f) p)).

(** [onFileSelected]; [selected] is [evt.target.files?.[0]]. *)
Definition onFileSelected (selected : option File) (p : Page) : Page :=
  match selected with
  | None => p
  | Some f => select f p
  end.

(** What the browser yields when a frame is drawn and encoded: no 2d
    context, no blob, or the octets of the PNG. *)
Inductive Shot :=
  | NoContext
  | NoBlob
  | Frame (blob : bytes).

(** [captureFrame]: lines 282 to 315.  [now] is [Date.now()] at the
    time the file is named. *)
Definition captureFrame (shot : Shot) (now : Z) (p : Page) : Page :=
  if Photobooth.videoRef (camera p) then
    match shot with
    | NoContext =>
        setCamera (Photobooth.setCameraError (Some "Unable to capture photo.") (camera p)) p
    | NoBlob =>
        setCamera (Photobooth.setCameraError (Some "Failed to read camera frame.") (camera p)) p
    | Frame blob =>
        select (mkFile (Some ("photobooth-" +:+ pretty now +:+ ".png")) "image/png" blob) p
    end
  else p.

(** What [navigator.mediaDevices.getUserMedia] does when asked: it is
    not there, it resolves to a stream, or it rejects. *)
Inductive Media :=
  | Unsupported
  | Grants
  | Refuses.

(** [requestCamera]: lines 210 to 238. *)
Definition requestCamera (m : Media) (c : Photobooth.State) : Photobooth.State :=
  match m with
  | Unsupported =>
      Photobooth.setCameraError (Some "Camera not supported in this environment.") c
  | Grants | Refuses =>
      if Photobooth.streamRef c then Photobooth.cameraGranted c
      else
        match m with
        | Grants => Photobooth.cameraGranted c
        | _ =>
            Photobooth.setCameraError
              (Some "Unable to access camera. Check permissions.")
              (Photobooth.setCameraError None c)
        end
  end.

(** [toggleCamera] *)
Definition toggleCamera (m : Media) (c : Photobooth.State) : Photobooth.State :=
  if Photobooth.cameraActive c then Photobooth.cleanupCamera c
  else requestCamera m c.

(** The form [editWithGemini] sends. *)
Definition edit_request (p : Page) : option FormData :=
  f ← file p; text ← instruction p; Some (EditTest.edit_form f text).

(** [editWithGemini] up to the [await fetch]: lines 172 to 175. *)
Definition editWithGemini_begin (p : Page) : Page :=
  setResultUrl JNull (setError JNull (setLoading true p)).

(** [editWithGemini] after the response arrived: lines 182 to 193.
    Nothing catches a rejection of [await res.blob()]. *)
Definition editWithGemini_settle (createObjectURL : bytes -> string)
    (res : EditTest.Response) (p : Page) : Page :=
  if negb (EditTest.ok res) then
    let data := EditTest.safeJson res in
    setLoading false
      (setError (EditTest.nullish_or (EditTest.get "error" data)
                   (JStr "Edit failed (check your /api/photobooth/edit backend)")) p)
  else
    match EditTest.blob res with
    | Normal octets =>
        let url := createObjectURL octets in
        setLoading false (setResultUrl (JStr url) p)
    | Throw _ => p
    end.

(** [editWithGemini]; [fetched] is what [await fetch(...)] yields, and
    nothing catches its rejection. *)
Definition editWithGemini (createObjectURL : bytes -> string)
    (fetched : Completion EditTest.Response) (p : Page) : Page :=
  match file p with
  | None => p
  | Some _ =>
      match fetched with
      | Normal res => editWithGemini_settle createObjectURL res (editWithGemini_begin p)
      | Throw _ => editWithGemini_begin p
      end
  end.

(** The calls of [captureFrame] made in one second, in order: call
    [i] finds what [outcome i] says, the frame and the clock. *)
Definition captureFrames (outcome : nat -> Shot * Z) (calls : nat) (p : Page) : Page :=
  foldl (fun q i => captureFrame (fst (outcome i)) (snd (outcome i)) q) p (seq 0 calls).

(** One second passes: the interval callbacks run, and each call of
    [captureFrame] they make has its effect on the page. *)
Definition tick {react : React} (outcome : nat -> Shot * Z) (p : Page) : Page :=
  let c := Photobooth.tick (camera p) in
  captureFrames outcome (Photobooth.captures c - Photobooth.captures (camera p))
    (setCamera c p).

(** What can happen to the mounted page.  There is a preset button for
    each entry of [PRESETS] and for nothing else. *)
Inductive Event :=
  | StartCountdown
  | Tick (outcome : nat -> Shot * Z)
  | ToggleCamera (m : Media)
  | FileSelected (selected : option File)
  | PresetClicked (idx : nat)
  | Generated (createObjectURL : bytes -> string) (fetched : Completion EditTest.Response).

Definition handle {react : React} (p : Page) (e : Event) : Page :=
  match e with
  | StartCountdown => setCamera (Photobooth.startCountdown (camera p)) p
  | Tick outcome => tick outcome p
  | ToggleCamera m => setCamera (toggleCamera m (camera p)) p
  | FileSelected selected => onFileSelected selected p
  | PresetClicked idx =>
      if bool_decide (idx < length PRESETS) then setPresetIndex idx p else p
  | Generated createObjectURL fetched => editWithGemini createObjectURL fetched p
  end.

(** A handler runs, then the component renders. *)
Definition step {react : React} (p : Page) (e : Event) : Page :=
  let p := handle p e in
  setCamera (Photobooth.render (camera p)) p.

Definition run {react : React} (p : Page) (events : list Event) : Page :=
  foldl step p events.

(** The page after the first render. *)
Definition initial : Page :=
  mkPage None 0 false JNull JNull Photobooth.initial.

(** The calls of [startCountdown] and the seconds in a list of events. *)
Fixpoint starts (events : list Event) : nat :=
  match events with
  | [] => 0
  | StartCountdown :: rest => S (starts rest)
  | _ :: rest => starts rest
  end.

Fixpoint seconds (events : list Event) : nat :=
  match events with
  | [] => 0
  | Tick _ :: rest => S (seconds rest)
  | _ :: rest => seconds rest
  end.

(** The page is taken down: the cleanup of the mount effect runs. *)
Definition unmount (p : Page) : Page :=
  setCamera (Photobooth.unmount (camera p)) p.

(** The seconds that pass afterwards, each with what the browser would
    yield for a frame and the clock. *)
Definition pass {react : React} (p : Page) (later : list (nat -> Shot * Z)) : Page :=
  foldl (fun q outcome => tick outcome q) p later.

(** The countdown cells after [calls] calls of [startCountdown] and
    [secs] seconds, with [k] countdowns run to their end: no countdown,
    or one with a count from 1 to 5 and one interval.  Every countdown
    that ended called [captureFrame] as often as React calls an
    updater, and took a call of [startCountdown] and five seconds, as
    will the one that is running. *)
Definition paced {react : React} (calls secs : nat) (c : Photobooth.State) : Prop :=
  exists k,
    (Photobooth.idle_at (updater_runs * k) c /\ 5 * k <= secs /\ k <= calls) \/
    (exists n id,
       n < 5 /\ Photobooth.counting_at (S n) id (updater_runs * k) c /\
       5 * k + (4 - n) <= secs /\ S k <= calls).


End Booth.

(** ** Path segments *)

(** A segment that [normalizeString] keeps as it is: not empty, not
    ["."], not [".."], and without a separator in it. *)
Definition plain (seg : string) : Prop :=
  seg <> "" /\ seg <> "." /\ seg <> ".." /\ includes "/" seg = false.

(** * Properties *)

(** ** Strings *)

Lemma split_not_nil (c : ascii) (s : string) : split c s <> [].
Proof.
  induction s as [|a s IH]; simpl; [discriminate|].
  destruct (Ascii.eqb a c); [discriminate|].
  destruct (split c s); discriminate.
Qed.

Lemma split_without_separator (c : ascii) (s : string) :
  includes c s = false -> split c s = [s].
Proof.
  induction s as [|a s IH]; simpl; [reflexivity|].
  destruct (Ascii.eqb a c); simpl; [discriminate|].
  intros Hs. rewrite (IH Hs). reflexivity.
Qed.

Lemma split_singleton (c : ascii) (s h : string) :
  split c s = [h] -> s = h.
Proof.
  revert h. induction s as [|a r IH]; simpl; intros h Hs.
  - congruence.
  - destruct (Ascii.eqb a c).
    + pose proof (split_not_nil c r). destruct (split c r); congruence.
    + pose proof (split_not_nil c r).
      destruct (split c r) as [|x xs] eqn:Hr; [congruence|].
      injection Hs as <- ->. f_equal. apply IH. reflexivity.
Qed.

Lemma endsWith_cons (c a b : ascii) (r : string) :
  endsWith c (String a (String b r)) = endsWith c (String b r).
Proof. reflexivity. Qed.

(** The last piece of a split is empty exactly for the empty string and
    for a string that ends in the separator. *)
Lemma last_split_empty (c : ascii) (s : string) :
  last (split c s) = Some EmptyString <-> s = EmptyString \/ endsWith c s = true.
Proof.
  induction s as [|a r IH].
  - simpl. split; auto.
  - pose proof (split_not_nil c r) as Hne.
    simpl split. destruct (Ascii.eqb a c) eqn:Hac.
    + destruct (split c r) as [|h t] eqn:Hs; [congruence|].
      change (last (EmptyString :: h :: t)) with (last (h :: t)). rewrite IH.
      destruct r as [|b r'].
      * simpl. rewrite Hac. tauto.
      * rewrite endsWith_cons. split; intros [Hd|He]; try discriminate; auto.
    + destruct (split c r) as [|h t] eqn:Hs; [congruence|].
      destruct t as [|h' t'].
      * pose proof (split_singleton _ _ _ Hs) as ->.
        simpl last. split; [discriminate|].
        intros [Hd|He]; [discriminate|].
        destruct h as [|b r'].
        -- simpl in He. congruence.
        -- rewrite endsWith_cons in He.
           assert (last [String b r'] = Some EmptyString) as Hl
             by (apply IH; right; exact He).
           discriminate Hl.
      * change (last (String a h :: h' :: t')) with (last (h :: h' :: t')).
        rewrite IH. destruct r as [|b r'].
        -- simpl in Hs. discriminate.
        -- rewrite endsWith_cons. split; intros [Hd|He]; try discriminate; auto.
Qed.

(** ** Upload handler: the stored name *)
Section UploadNames.
Context {rt : Runtime}.

Lemma extension_when_falling_back (file : FormDataEntryValue) :
  Upload.falls_back file = true ->
  Upload.extension file = toLowerCase "png".
Proof.
  unfold Upload.falls_back, Upload.extension, or_else.
  destruct (Upload.last_segment file) as [seg|]; [|reflexivity].
  destruct (truthy seg); [discriminate|reflexivity].
Qed.

Lemma extension_when_not_falling_back (file : FormDataEntryValue) :
  Upload.falls_back file = false ->
  exists seg, Upload.last_segment file = Some seg /\
              Upload.extension file = toLowerCase seg.
Proof.
  unfold Upload.falls_back, Upload.extension, or_else.
  destruct (Upload.last_segment file) as [seg|]; [|discriminate].
  destruct (truthy seg); [|discriminate].
  intros _. exists seg. split; reflexivity.
Qed.

Lemma falls_back_iff (f : File) :
  Upload.falls_back (FFile f) = true <->
  name f = None \/ name f = Some EmptyString \/
  exists n, name f = Some n /\ endsWith "." n = true.
Proof.
  unfold Upload.falls_back, Upload.last_segment, pop.
  destruct (name f) as [n|]; simpl.
  - pose proof (last_split_empty "." n) as Hl.
    pose proof (last_is_Some (split "." n)) as Hs.
    destruct (last (split "." n)) as [seg|] eqn:Hseg.
    + destruct seg as [|a seg]; simpl.
      * split; [intros _|reflexivity].
        destruct (proj1 Hl eq_refl) as [->|He]; [tauto|].
        right. right. exists n. split; [reflexivity|exact He].
      * split; [discriminate|].
        intros [Hn|[Hn|(n' & Hn & He)]]; try discriminate.
        -- injection Hn as ->. assert (Some (String a seg) = Some EmptyString) as Hd
             by (apply Hl; left; reflexivity). discriminate Hd.
        -- injection Hn as <-. assert (Some (String a seg) = Some EmptyString) as Hd
             by (apply Hl; right; exact He). discriminate Hd.
    + exfalso. destruct (proj2 Hs (split_not_nil "." n)) as [x Hx]. discriminate Hx.
  - split; [tauto|reflexivity].
Qed.

(** C9 (as amended).  A non-empty file name without a dot is, lower
    cased, the extension of the stored name, and the literal ["png"]
    is not used for it; the literal is used exactly when the name is
    undefined, empty or ends in a dot, and then the extension is the
    lower-cased literal. *)
Theorem extension_of_dotless_name (f : File) :
  (forall n, name f = Some n -> n <> EmptyString -> includes "." n = false ->
     Upload.extension (FFile f) = toLowerCase n /\
     Upload.falls_back (FFile f) = false) /\
  (Upload.falls_back (FFile f) = true <->
     name f = None \/ name f = Some EmptyString \/
     exists n, name f = Some n /\ endsWith "." n = true) /\
  (Upload.falls_back (FFile f) = true ->
     Upload.extension (FFile f) = toLowerCase "png").
Proof.
  split; [|split; [apply falls_back_iff|apply extension_when_falling_back]].
  intros n Hn Hne Hdot.
  unfold Upload.extension, Upload.falls_back, Upload.last_segment, pop.
  rewrite Hn. simpl. rewrite (split_without_separator _ _ Hdot). simpl.
  destruct n; [congruence|]. split; reflexivity.
Qed.
End UploadNames.

Lemma extension_of_dotless_name_witness :
  Upload.extension (FFile (mkFile (Some "README") "text/plain" [])) = "readme" /\
  Upload.falls_back (FFile (mkFile (Some "README") "text/plain" [])) = false.
Proof.
  refine (proj1 (extension_of_dotless_name (mkFile (Some "README") "text/plain" []))
            "README" _ _ _); [reflexivity|discriminate|reflexivity].
Defined.

(** C9 (as stated) fails: the name ["photo."] is neither undefined nor
    empty, and its extension is the literal ["png"]. *)
Lemma fallback_for_trailing_dot :
  ~ (forall (R : Runtime) (f : File),
       Upload.falls_back (FFile f) = true ->
       name f = None \/ name f = Some EmptyString).
Proof.
  intros Hclaim.
  destruct (Hclaim Reference.runtime (mkFile (Some "photo.") "image/png" []) eq_refl)
    as [Hn|Hn]; discriminate Hn.
Qed.

(** ** Upload handler: what the disk shows while a file is written *)

Lemma concat_chunks_upto (fuel size : nat) (data : bytes) :
  length data <= fuel -> 0 < size ->
  concat (chunks_upto fuel size data) = data.
Proof.
  revert data. induction fuel as [|fuel IH]; intros data Hlen Hsize.
  - destruct data; [reflexivity|simpl in Hlen; lia].
  - destruct data as [|b data]; [reflexivity|].
    cbn [chunks_upto concat].
    rewrite IH; [apply take_drop| |exact Hsize].
    rewrite length_drop. simpl in Hlen |- *. lia.
Qed.

Lemma concat_chunks {rt : Runtime} (data : bytes) : concat (chunks data) = data.
Proof. apply concat_chunks_upto; [reflexivity|apply Pos2Nat.is_pos]. Qed.

Section UploadWrites.
Context {rt : Runtime}.
Import Upload.

(** What a run of the writes does: [n] pieces are written, each leaving
    the file at [p] with the octets written so far, and either all are
    written or the next [write] fails. *)
Lemma fs_write_all_run (p : string) (data : bytes) (before : FS) (pieces : list bytes) :
  forall (w : World) (cur : bytes),
    files (disk w) !! p = Some cur ->
    (forall q, q <> p -> files (disk w) !! q = files before !! q) ->
    cur ++ concat pieces = data ->
    exists (n : nat) (seen : list FS) (d : FS) (c : Completion unit),
      fs_write_all p pieces w =
        (c, mkWorld (cwd w) (clock w) (entropy w) (drawn w) d
              (observable w ++ seen) (console w)) /\
      ((c = Normal tt /\ n = length pieces) \/
       (exists e, c = Throw e /\ n < length pieces)) /\
      Forall (shows_prefix p data before) seen /\
      (forall i, 0 < i <= n ->
         exists di, di ∈ seen /\ files di !! p = Some (cur ++ concat (take i pieces))) /\
      files d !! p = Some (cur ++ concat (take n pieces)) /\
      (forall q, q <> p -> files d !! q = files before !! q) /\
      dirs d = dirs (disk w) /\
      last (disk w :: seen) = Some d.
Proof.
  induction pieces as [|piece rest IH]; intros w cur Hcur Hother Hdata.
  - exists 0, [], (disk w), (Normal tt). simpl. rewrite !app_nil_r.
    repeat split; auto.
    + destruct w; reflexivity.
    + intros i Hi. lia.
  - simpl in Hdata. cbn [fs_write_all]. unfold bind, fs_write.
    destruct (write_error (disk w) p piece) as [e|] eqn:Hfail.
    { exists 0, [], (disk w), (Throw e). simpl. rewrite !app_nil_r.
      repeat split; auto.
      - destruct w; reflexivity.
      - right. exists e. split; [reflexivity|lia].
      - intros i Hi. lia. }
    set (d1 := write_chunk p piece (disk w)).
    assert (files d1 !! p = Some (cur ++ piece)) as Hcur1.
    { unfold d1, write_chunk. simpl. rewrite lookup_insert_eq, Hcur. reflexivity. }
    assert (forall q, q <> p -> files d1 !! q = files before !! q) as Hother1.
    { intros q Hq. unfold d1, write_chunk. simpl.
      rewrite lookup_insert_ne by congruence. auto. }
    destruct (IH (set_disk d1 w) (cur ++ piece))
      as (n & seen & d & c & Hrun & Hend & Hseen & Hsteps & Hfin & Hoth & Hdirs & Hlast).
    { exact Hcur1. } { exact Hother1. } { rewrite <- app_assoc. exact Hdata. }
    exists (S n), (d1 :: seen), d, c. rewrite Hrun. simpl.
    split; [rewrite <- app_assoc; reflexivity|].
    split.
    { destruct Hend as [[-> ->]|(e & -> & Hn)]; [left; auto|].
      right. exists e. split; [reflexivity|lia]. }
    split.
    { constructor; [|exact Hseen]. split; [|exact Hother1].
      exists (cur ++ piece). split; [exact Hcur1|].
      exists (concat rest). rewrite <- app_assoc. symmetry. exact Hdata. }
    split.
    { intros i Hi. destruct i as [|i]; [lia|]. simpl.
      destruct i as [|i].
      - exists d1. split; [left|]. rewrite take_0. simpl. rewrite app_nil_r. exact Hcur1.
      - destruct (Hsteps (S i)) as (di & Hin & Hdi); [lia|].
        exists di. split; [right; exact Hin|]. rewrite Hdi, <- app_assoc. reflexivity. }
    split; [rewrite Hfin, <- app_assoc; reflexivity|].
    split; [exact Hoth|]. split; [exact Hdirs|].
    simpl in Hlast. exact Hlast.
Qed.

(** The ways a request with a file part ends, with the states of the
    disk it goes through: [mkdir] fails; [open] fails; or the file is
    opened, [n] pieces are written and the answer is 200 when these are
    all and 500 when the next [write] failed. *)
Lemma upload_trace (form : FormData) (f : File) (w : World) :
  form_get "file" form = Some (FFile f) ->
  (exists e,
     POST (mkRequest (Normal form)) w =
       (Normal (NextResponse_json (error_json (message_or "Upload failed" e)) 500),
        mkWorld (cwd w) (clock w) (entropy w) (drawn w) (disk w) (observable w)
          (console w ++ [e]))) \/
  (exists e d1,
     mkdir_recursive (uploadsDir (cwd w)) (disk w) = Normal d1 /\
     POST (mkRequest (Normal form)) w =
       (Normal (NextResponse_json (error_json (message_or "Upload failed" e)) 500),
        mkWorld (cwd w) (clock w) (entropy w) (S (drawn w)) d1 (observable w ++ [d1])
          (console w ++ [e]))) \/
  (exists d1 d2 n seen d,
     mkdir_recursive (uploadsDir (cwd w)) (disk w) = Normal d1 /\
     open_w (final_path w (FFile f)) d1 = Normal d2 /\
     Forall (shows_prefix (final_path w (FFile f)) (octets f) (disk w)) seen /\
     (forall i, 0 < i <= n ->
        exists di, di ∈ seen /\
          files di !! final_path w (FFile f) = Some (concat (take i (chunks (octets f))))) /\
     files d !! final_path w (FFile f) = Some (concat (take n (chunks (octets f)))) /\
     (forall q, q <> final_path w (FFile f) -> files d !! q = files (disk w) !! q) /\
     dirs d = dirs d1 /\
     last (d2 :: seen) = Some d /\
     ((n = length (chunks (octets f)) /\
       POST (mkRequest (Normal form)) w =
         (Normal (NextResponse_json
                    (JObj [("url", JStr ("/uploads/" +:+
                       stored_name (clock w) (entropy w (drawn w)) (extension (FFile f))))])
                    200),
          mkWorld (cwd w) (clock w) (entropy w) (S (drawn w)) d
            (observable w ++ d1 :: d2 :: seen) (console w))) \/
      (n < length (chunks (octets f)) /\
       exists e,
         POST (mkRequest (Normal form)) w =
           (Normal (NextResponse_json (error_json (message_or "Upload failed" e)) 500),
            mkWorld (cwd w) (clock w) (entropy w) (S (drawn w)) d
              (observable w ++ d1 :: d2 :: seen) (console w ++ [e]))))).
Proof.
  intros Hget.
  unfold POST, try_catch, bind, lift, gets, ret, console_error, modify,
    Date_now, randomUUID; simpl.
  rewrite Hget; simpl.
  unfold fs_mkdir.
  destruct (mkdir_recursive (uploadsDir (cwd w)) (disk w)) as [d1|e] eqn:Hmk; simpl.
  2: { left. exists e. reflexivity. }
  assert (files d1 = files (disk w)) as Hd1.
  { unfold mkdir_recursive in Hmk.
    destruct (bool_decide _); [discriminate|]. injection Hmk as <-. reflexivity. }
  unfold fs_writeFile, bind, fs_open; simpl.
  fold (final_path w (FFile f)). set (p := final_path w (FFile f)).
  destruct (open_w p d1) as [d2|e] eqn:Hop; simpl.
  2: { right. left. exists e, d1. split; reflexivity. }
  assert (files d2 !! p = Some [] /\ dirs d2 = dirs d1 /\
          forall q, q <> p -> files d2 !! q = files (disk w) !! q)
    as (Hd2 & Hdirs2 & Hd2').
  { unfold open_w in Hop. destruct (bool_decide _); [|discriminate].
    destruct (_ || _); [discriminate|]. injection Hop as <-. simpl. split; [|split].
    - apply lookup_insert_eq.
    - reflexivity.
    - intros q Hq. rewrite lookup_insert_ne by congruence. rewrite Hd1. reflexivity. }
  right. right.
  match goal with |- context [fs_write_all p ?pieces ?w2] =>
    destruct (fs_write_all_run p (octets f) (disk w) pieces w2 [])
      as (n & seen & d & c & Hrun & Hend & Hseen & Hsteps & Hfin & Hoth & Hdirs & Hlast)
  end.
  { exact Hd2. } { exact Hd2'. } { simpl. apply concat_chunks. }
  simpl in Hfin, Hsteps, Hdirs, Hlast.
  simpl in Hrun.
  exists d1, d2, n, seen, d. rewrite Hrun.
  split; [reflexivity|]. split; [exact Hop|]. split; [exact Hseen|].
  split; [exact Hsteps|]. split; [exact Hfin|]. split; [exact Hoth|].
  split; [congruence|]. split; [exact Hlast|].
  destruct Hend as [[-> ->]|(e & -> & Hn)]; simpl.
  - left. split; [reflexivity|]. rewrite <- !app_assoc. reflexivity.
  - right. split; [exact Hn|]. exists e. rewrite <- !app_assoc. reflexivity.
Qed.

(** C3 (as amended).  For a request with a file part the handler
    always answers, and writes to one path only, the final one,
    without a temporary name or a rename.  Every state of the disk it
    goes through has the files it had before, except that the final
    path may hold a prefix of the upload.  When the answer is 200 the
    final path holds the whole upload in the end, and on the way there
    the disk went through a state in which the final path held the
    empty file, and after each [write] through one in which it held the
    octets written so far: a reader can have seen each of them. *)
Theorem upload_final_path_shows_prefixes
    (form : FormData) (f : File) (w : World) :
  form_get "file" form = Some (FFile f) ->
  exists (resp : NextResponse) (seen : list FS),
    fst (POST (mkRequest (Normal form)) w) = Normal resp /\
    observable (snd (POST (mkRequest (Normal form)) w)) = observable w ++ seen /\
    Forall (fun d => same_files (disk w) d \/
                     shows_prefix (final_path w (FFile f)) (octets f) (disk w) d) seen /\
    (status resp = 200%Z ->
     files (disk (snd (POST (mkRequest (Normal form)) w))) !! final_path w (FFile f)
       = Some (octets f) /\
     forall i, i <= length (chunks (octets f)) ->
       exists d, d ∈ seen /\
         files d !! final_path w (FFile f) = Some (concat (take i (chunks (octets f))))).
Proof.
  intros Hget.
  destruct (upload_trace form f w Hget)
    as [(e & ->)|[(e & d1 & Hmk & ->)
       |(d1 & d2 & n & seen & d & Hmk & Hop & Hseen & Hsteps & Hfin & Hoth & _ & _ & Hend)]].
  - eexists; exists []. simpl. rewrite app_nil_r.
    repeat split; auto; discriminate.
  - assert (same_files (disk w) d1) as Hd1.
    { unfold mkdir_recursive in Hmk.
      destruct (bool_decide _); [discriminate|]. injection Hmk as <-. intros q. reflexivity. }
    eexists; exists [d1]. simpl. repeat split; auto; discriminate.
  - assert (same_files (disk w) d1) as Hd1.
    { unfold mkdir_recursive in Hmk.
      destruct (bool_decide _); [discriminate|]. injection Hmk as <-. intros q. reflexivity. }
    assert (files d2 !! final_path w (FFile f) = Some [] /\
            forall q, q <> final_path w (FFile f) -> files d2 !! q = files (disk w) !! q)
      as [Hd2 Hd2'].
    { unfold open_w in Hop. destruct (bool_decide _); [|discriminate].
      destruct (_ || _); [discriminate|]. injection Hop as <-. simpl. split.
      - apply lookup_insert_eq.
      - intros q Hq. rewrite lookup_insert_ne by congruence. apply Hd1. }
    assert (Forall (fun d' => same_files (disk w) d' \/
                      shows_prefix (final_path w (FFile f)) (octets f) (disk w) d')
              (d1 :: d2 :: seen)) as Hall.
    { constructor; [left; exact Hd1|]. constructor.
      - right. split; [|exact Hd2']. exists []. split; [exact Hd2|apply prefix_nil].
      - eapply Forall_impl; [exact Hseen|]. intros d' Hd'. right. exact Hd'. }
    destruct Hend as [[Hn ->]|(Hn & e & ->)]; eexists; exists (d1 :: d2 :: seen); simpl;
      (split; [reflexivity|]); (split; [reflexivity|]); (split; [exact Hall|]).
    2: { discriminate. }
    intros _. split.
    + rewrite Hfin, Hn, firstn_all, concat_chunks. reflexivity.
    + intros i Hi. destruct i as [|i].
      * exists d2. split; [right; left|]. rewrite take_0. exact Hd2.
      * destruct (Hsteps (S i)) as (di & Hin & Hdi); [lia|].
        exists di. split; [right; right; exact Hin|exact Hdi].
Qed.
End UploadWrites.

Lemma upload_final_path_shows_prefixes_witness :
  exists (resp : NextResponse) (seen : list FS),
    fst (Upload.POST (Samples.upload_of "photo.png") Samples.upload_world) = Normal resp /\
    Upload.observable (snd (Upload.POST (Samples.upload_of "photo.png") Samples.upload_world))
      = Upload.observable Samples.upload_world ++ seen /\
    Forall (fun d =>
              Upload.same_files (Upload.disk Samples.upload_world) d \/
              Upload.shows_prefix
                (Upload.final_path Samples.upload_world (FFile (Samples.photo "photo.png")))
                (octets (Samples.photo "photo.png"))
                (Upload.disk Samples.upload_world) d) seen /\
    (status resp = 200%Z ->
     files (Upload.disk (snd (Upload.POST (Samples.upload_of "photo.png") Samples.upload_world)))
       !! Upload.final_path Samples.upload_world (FFile (Samples.photo "photo.png"))
       = Some (octets (Samples.photo "photo.png")) /\
     forall i, i <= length (chunks (octets (Samples.photo "photo.png"))) ->
       exists d, d ∈ seen /\
         files d !! Upload.final_path Samples.upload_world (FFile (Samples.photo "photo.png"))
           = Some (concat (take i (chunks (octets (Samples.photo "photo.png")))))).
Proof.
  exact (upload_final_path_shows_prefixes
           [("file", FFile (Samples.photo "photo.png"))]
           (Samples.photo "photo.png") Samples.upload_world eq_refl).
Defined.

(** C3 (as stated) fails: while [photo.png] (four octets) is uploaded
    and the handler answers 200, a reader of the final path finds no
    file, then an empty file, then the whole file. *)
Lemma truncated_file_at_final_path :
  fst (Upload.POST (Samples.upload_of "photo.png") Samples.upload_world)
    = Normal (NextResponse_json
        (JObj [("url", JStr "/uploads/1700000000000-1b9d6bcd-bbfd-4b2d-9b5d-ab8dfbbd4bed.png")])
        200) /\
  Samples.readings "/app/public/uploads/1700000000000-1b9d6bcd-bbfd-4b2d-9b5d-ab8dfbbd4bed.png"
    (snd (Upload.POST (Samples.upload_of "photo.png") Samples.upload_world))
    = [None; Some []; Some [x89; x50; x4e; x47]].
Proof. split; vm_compute; reflexivity. Qed.

(** When the device takes no octet, the handler answers 500 and the
    empty file stays at the final path. *)
Lemma failed_write_leaves_truncated_file :
  fst (Upload.POST (rt := Reference.full_disk)
         (Samples.upload_of "photo.png") Samples.upload_world)
    = Normal (NextResponse_json (error_json "ENOSPC: no space left on device, write") 500) /\
  files (Upload.disk (snd (Upload.POST (rt := Reference.full_disk)
                             (Samples.upload_of "photo.png") Samples.upload_world)))
    !! "/app/public/uploads/1700000000000-1b9d6bcd-bbfd-4b2d-9b5d-ab8dfbbd4bed.png"
    = Some [].
Proof. split; vm_compute; reflexivity. Qed.

(** ** Upload handler: names the code does not handle *)

(** When the handler answers 200, the [url] of the payload is
    [/uploads/] followed by the stored name, made of the clock, a fresh
    identifier and the extension. *)
Lemma upload_success_names_stored_file {rt : Runtime}
    (form : FormData) (f : File) (w : Upload.World) (resp : NextResponse) :
  form_get "file" form = Some (FFile f) ->
  fst (Upload.POST (mkRequest (Normal form)) w) = Normal resp ->
  status resp = 200%Z ->
  body resp =
    JsonBody (JObj [("url", JStr ("/uploads/" +:+
      Upload.stored_name (Upload.clock w) (Upload.entropy w (Upload.drawn w))
        (Upload.extension (FFile f))))]).
Proof.
  intros Hget.
  unfold Upload.POST, try_catch, bind, lift, gets, Upload.Date_now, Upload.randomUUID; simpl.
  rewrite Hget; simpl.
  unfold Upload.fs_mkdir.
  destruct (mkdir_recursive _ _) as [d1|e]; simpl.
  2: { intros [= <-]. discriminate. }
  unfold Upload.fs_writeFile, bind, Upload.fs_open; simpl.
  destruct (open_w _ d1) as [d2|e]; simpl.
  2: { intros [= <-]. discriminate. }
  match goal with |- context [Upload.fs_write_all ?p ?pieces ?w2] =>
    destruct (Upload.fs_write_all p pieces w2) as [[[]|e] w3]; simpl
  end.
  - intros [= <-] _. reflexivity.
  - intros [= <-]. discriminate.
Qed.

(** A stored name ends in the whole lower-cased file name when that
    name is not empty and has no dot. *)
Lemma dotless_name_is_the_extension {rt : Runtime}
    (form : FormData) (f : File) (n : string) (w : Upload.World) (resp : NextResponse) :
  form_get "file" form = Some (FFile f) ->
  name f = Some n -> n <> EmptyString -> includes "." n = false ->
  fst (Upload.POST (mkRequest (Normal form)) w) = Normal resp ->
  status resp = 200%Z ->
  body resp =
    JsonBody (JObj [("url", JStr ("/uploads/" +:+
      Upload.stored_name (Upload.clock w) (Upload.entropy w (Upload.drawn w))
        (toLowerCase n)))]).
Proof.
  intros Hget Hname Hne Hdot Hrun Hok.
  rewrite (upload_success_names_stored_file form f w resp Hget Hrun Hok).
  unfold Upload.extension, Upload.last_segment, pop.
  rewrite Hname. simpl. rewrite (split_without_separator _ _ Hdot). simpl.
  destruct n; [congruence|reflexivity].
Qed.

(** C6, at a file named [README].  The name has no extension, and the
    file is stored with the extension [readme], not with [png]. *)
Theorem extensionless_name_kept_as_extension :
  fst (Upload.POST (Samples.upload_of "README") Samples.upload_world)
    = Normal (NextResponse_json
        (JObj [("url", JStr "/uploads/1700000000000-1b9d6bcd-bbfd-4b2d-9b5d-ab8dfbbd4bed.readme")])
        200) /\
  files (Upload.disk (snd (Upload.POST (Samples.upload_of "README") Samples.upload_world)))
    !! "/app/public/uploads/1700000000000-1b9d6bcd-bbfd-4b2d-9b5d-ab8dfbbd4bed.readme"
    = Some Samples.png_signature /\
  files (Upload.disk (snd (Upload.POST (Samples.upload_of "README") Samples.upload_world)))
    !! "/app/public/uploads/1700000000000-1b9d6bcd-bbfd-4b2d-9b5d-ab8dfbbd4bed.png"
    = None.
Proof. repeat split; vm_compute; reflexivity. Qed.

(** C5, at a file named [photo.v1/final].  The text after the last dot
    contains a path separator, the path the handler opens lies in a
    directory that does not exist, and the answer is 500 with nothing
    stored. *)
Theorem separator_in_extension_not_stored :
  fst (Upload.POST (Samples.upload_of "photo.v1/final") Samples.upload_world)
    = Normal (NextResponse_json
        (error_json "ENOENT: no such file or directory, open '/app/public/uploads/1700000000000-1b9d6bcd-bbfd-4b2d-9b5d-ab8dfbbd4bed.v1/final'")
        500) /\
  map_to_list
    (files (Upload.disk (snd (Upload.POST (Samples.upload_of "photo.v1/final")
                                Samples.upload_world))))
    = [].
Proof. split; vm_compute; reflexivity. Qed.

(** ** Edit handler *)
Section EditHandler.
Context {rt : Runtime}.
Import Edit.

Lemma truthy_true (s : string) : truthy s = true <-> s <> EmptyString.
Proof. destruct s; simpl; split; congruence. Qed.

Lemma truthy_false (s : string) : truthy s = false <-> s = EmptyString.
Proof. destruct s; simpl; split; congruence. Qed.

(** [find] returns the first element that satisfies the predicate. *)
Lemma find_part_Some (pred : Part -> bool) (ps : list Part) (p : Part) :
  find_part pred ps = Some p <->
  exists before after,
    ps = before ++ p :: after /\ pred p = true /\
    Forall (fun q => pred q = false) before.
Proof.
  induction ps as [|q ps IH]; simpl.
  - split; [discriminate|]. intros (before & after & Hps & _).
    destruct before; discriminate Hps.
  - destruct (pred q) eqn:Hq.
    + split.
      * intros [= <-]. exists [], ps. auto.
      * intros (before & after & Hps & Hp & Hbefore).
        destruct before as [|b before]; simpl in Hps.
        -- congruence.
        -- injection Hps as <- _. inversion Hbefore; congruence.
    + rewrite IH. split.
      * intros (before & after & -> & Hp & Hbefore).
        exists (q :: before), after. auto.
      * intros (before & after & Hps & Hp & Hbefore).
        destruct before as [|b before]; simpl in Hps.
        -- congruence.
        -- injection Hps as <- ->. inversion Hbefore; subst. eauto.
Qed.

Lemma find_part_None (pred : Part -> bool) (ps : list Part) :
  find_part pred ps = None <-> Forall (fun q => pred q = false) ps.
Proof.
  induction ps as [|q ps IH]; simpl.
  - split; auto.
  - destruct (pred q) eqn:Hq.
    + split; [discriminate|]. inversion 1; congruence.
    + rewrite IH. split; [auto|]. inversion 1; assumption.
Qed.

(** What [relay] answers, by the first part with inline data. *)
Lemma relay_cases (response : GenerateContentResponse) :
  (find_part has_data (parts_of response) = None /\ relay response = no_image) \/
  (exists p i payload,
     find_part has_data (parts_of response) = Some p /\
     inlineData p = Some i /\ data i = Some payload /\
     relay response =
       if truthy payload
       then image_response (Buffer_from_base64 payload) (or_else (mimeType i) "image/png")
       else no_image).
Proof.
  unfold relay.
  destruct (find_part has_data (parts_of response)) as [p|] eqn:Hfind; [|left; auto].
  right. apply find_part_Some in Hfind as (before & after & _ & Hp & _).
  unfold has_data, inline_data in Hp.
  destruct (inlineData p) as [i|] eqn:Hinline; simpl in Hp; [|discriminate].
  destruct (data i) as [payload|] eqn:Hdata; [|discriminate].
  exists p, i, payload. repeat split; first [reflexivity|assumption].
Qed.

(** The world after the provider was called once. *)
Lemma POST_validated (form : FormData) (f : File) (key : string) (w : World) :
  form_get "file" form = Some (FFile f) ->
  truthy (instruction_of form) = true ->
  GEMINI_API_KEY w = Some key ->
  truthy key = true ->
  POST (mkRequest (Normal form)) w =
    match provider w (upstream_call key f (instruction_of form)) with
    | Normal response =>
        (Normal (relay response),
         mkWorld (GEMINI_API_KEY w) (provider w)
           (invocations w ++ [upstream_call key f (instruction_of form)]) (console w))
    | Throw e =>
        (Normal (NextResponse_json (error_json (message_or "Server error" e)) 500),
         mkWorld (GEMINI_API_KEY w) (provider w)
           (invocations w ++ [upstream_call key f (instruction_of form)])
           (console w ++ [e]))
    end.
Proof.
  intros Hfile Htext Hkey Hk.
  unfold POST, try_catch, bind, lift, gets, generateContent; simpl.
  rewrite Hfile; simpl. rewrite Htext; simpl.
  destruct (GEMINI_API_KEY w) as [k|] eqn:Hw; [|discriminate].
  injection Hkey as ->. rewrite Hk; simpl.
  unfold upstream_call, or_else.
  destruct (provider w _); unfold ret, console_error, modify, bind; simpl;
    rewrite ?Hw; reflexivity.
Qed.

(** The three checks, in order, as the code makes them.  When the
    [file] entry is falsy (no entry of that name, or an empty text
    field) the answer is 400 "Missing file"; otherwise, with the
    instruction absent or empty, 400 "Missing instruction"; otherwise,
    with the credential unset or empty, 500 "Missing GEMINI_API_KEY".
    In all three cases the world is left as it was, so no call was
    made to the provider.  A text field named [file] that is not empty
    counts as a file here. *)
Lemma edit_validation_order (form : FormData) (w : World) :
  (entry_truthy (form_get "file" form) = false ->
     POST (mkRequest (Normal form)) w =
       (Normal (NextResponse_json (error_json "Missing file") 400), w)) /\
  (entry_truthy (form_get "file" form) = true ->
   form_get "instruction" form = None \/
   form_get "instruction" form = Some (FString EmptyString) ->
     POST (mkRequest (Normal form)) w =
       (Normal (NextResponse_json (error_json "Missing instruction") 400), w)) /\
  (entry_truthy (form_get "file" form) = true ->
   truthy (instruction_of form) = true ->
   GEMINI_API_KEY w = None \/ GEMINI_API_KEY w = Some EmptyString ->
     POST (mkRequest (Normal form)) w =
       (Normal (NextResponse_json (error_json "Missing GEMINI_API_KEY") 500), w)).
Proof.
  unfold POST, try_catch, bind, lift, gets, ret; simpl.
  repeat split.
  - intros Hfile. destruct (form_get "file" form) as [fv|]; [|reflexivity].
    rewrite Hfile. reflexivity.
  - intros Hfile Htext.
    destruct (form_get "file" form) as [fv|]; [|discriminate].
    rewrite Hfile; simpl.
    unfold instruction_of. destruct Htext as [-> | ->]; reflexivity.
  - intros Hfile Htext Hkey.
    destruct (form_get "file" form) as [fv|]; [|discriminate].
    rewrite Hfile, Htext; simpl.
    destruct Hkey as [-> | ->]; reflexivity.
Qed.

Lemma relay_status (response : GenerateContentResponse) :
  status (relay response) = 200%Z \/ status (relay response) = 502%Z.
Proof.
  destruct (relay_cases response) as [[_ ->]|(p & i & payload & _ & _ & _ & ->)].
  - right. reflexivity.
  - destruct (truthy payload); [left|right]; reflexivity.
Qed.


(** What the handler relays.  With the request validated and a
    response from the provider in hand, the handler looks at the parts
    of the first candidate in order and takes the first whose inline
    data is present.  When the payload of that part is not empty, the
    answer is 200 with the decoded payload as body; when it is empty,
    or when no part has inline data, the answer is 502 "No image
    returned from model", a JSON body. *)
Lemma edit_relays_first_inline_part
    (form : FormData) (f : File) (key : string) (w : World)
    (response : GenerateContentResponse) :
  form_get "file" form = Some (FFile f) ->
  instruction_of form <> EmptyString ->
  GEMINI_API_KEY w = Some key ->
  key <> EmptyString ->
  provider w (upstream_call key f (instruction_of form)) = Normal response ->
  (forall p, find_part has_data (parts_of response) = Some p ->
     exists before after i payload,
       parts_of response = before ++ p :: after /\
       Forall (fun q => inline_data q = None) before /\
       inlineData p = Some i /\ data i = Some payload /\
       fst (POST (mkRequest (Normal form)) w) =
         Normal (if truthy payload
                 then mkResponse 200
                        [("Content-Type", or_else (mimeType i) "image/png");
                         ("Cache-Control", "no-store")]
                        (RawBody (Buffer_from_base64 payload))
                 else NextResponse_json (error_json "No image returned from model") 502)) /\
  (Forall (fun q => inline_data q = None) (parts_of response) ->
     fst (POST (mkRequest (Normal form)) w) =
       Normal (NextResponse_json (error_json "No image returned from model") 502)).
Proof.
  intros Hfile Htext Hkey Hk Hresp.
  rewrite (POST_validated form f key w Hfile); try assumption;
    try (apply truthy_true; assumption).
  rewrite Hresp. simpl.
  assert (forall ps, Forall (fun q => has_data q = false) ps <->
                     Forall (fun q => inline_data q = None) ps) as Hsame.
  { intros ps. apply Forall_proper; [|reflexivity]. intros q.
    unfold has_data. destruct (inline_data q); split; congruence. }
  split.
  - intros p Hfind.
    destruct (relay_cases response) as [[Hnone _]|(p' & i & payload & Hfind' & Hi & Hd & Hrelay)];
      [congruence|].
    assert (p' = p) as -> by congruence.
    apply find_part_Some in Hfind as (before & after & Hps & _ & Hbefore).
    exists before, after, i, payload. rewrite Hrelay.
    repeat split; try assumption. apply Hsame, Hbefore.
  - intros Hall. apply Hsame, find_part_None in Hall.
    destruct (relay_cases response) as [[_ Hrelay]|(p & i & payload & Hfind & _)];
      [|congruence].
    rewrite Hrelay. reflexivity.
Qed.

Lemma relay_ok (response : GenerateContentResponse) :
  status (relay response) = 200%Z ->
  exists p i payload,
    find_part has_data (parts_of response) = Some p /\
    inlineData p = Some i /\ data i = Some payload /\ payload <> EmptyString /\
    relay response =
      image_response (Buffer_from_base64 payload) (or_else (mimeType i) "image/png").
Proof.
  destruct (relay_cases response) as [[_ ->]|(p & i & payload & Hfind & Hi & Hd & ->)].
  - discriminate.
  - destruct (truthy payload) eqn:Hp; [|discriminate].
    intros _. exists p, i, payload. repeat split; try assumption.
    apply truthy_true, Hp.
Qed.

(** C7.  Whenever the handler answers 200, the provider was called
    and returned a response whose first part with inline data was
    selected: the body is the base64-decoded payload of that part,
    [Content-Type] is the MIME type the part declares, or
    [image/png] when it declares none (or the empty string), and
    [Cache-Control] is [no-store]. *)
Theorem edit_success_is_decoded_image
    (req : NextRequest) (w : World) (resp : NextResponse) :
  fst (POST req w) = Normal resp ->
  status resp = 200%Z ->
  exists form f key response p i payload,
    formData req = Normal form /\
    form_get "file" form = Some (FFile f) /\
    GEMINI_API_KEY w = Some key /\
    provider w (upstream_call key f (instruction_of form)) = Normal response /\
    find_part has_data (parts_of response) = Some p /\
    inlineData p = Some i /\ data i = Some payload /\
    body resp = RawBody (Buffer_from_base64 payload) /\
    (forall m, mimeType i = Some m -> m <> EmptyString ->
       header "Content-Type" (headers resp) = Some m) /\
    (mimeType i = None \/ mimeType i = Some EmptyString ->
       header "Content-Type" (headers resp) = Some "image/png") /\
    header "Cache-Control" (headers resp) = Some "no-store".
Proof.
  destruct req as [[form|e]].
  2: { unfold POST, try_catch, bind, lift; simpl. intros [= <-]. discriminate. }
  destruct (form_get "file" form) as [[s|f]|] eqn:Hfile.
  1, 3: unfold POST, try_catch, bind, lift, gets; simpl; rewrite Hfile; simpl.
  - destruct (truthy s); simpl; [|intros [= <-]; discriminate].
    destruct (truthy (instruction_of form)); simpl; [|intros [= <-]; discriminate].
    destruct (GEMINI_API_KEY w) as [key|]; simpl; [|intros [= <-]; discriminate].
    destruct (truthy key); simpl; intros [= <-]; discriminate.
  - intros [= <-]. discriminate.
  - destruct (truthy (instruction_of form)) eqn:Htext.
    2: { unfold POST, try_catch, bind, lift, gets; simpl.
         rewrite Hfile; simpl. rewrite Htext; simpl.
         intros [= <-]. discriminate. }
    destruct (GEMINI_API_KEY w) as [key|] eqn:Hkey.
    2: { unfold POST, try_catch, bind, lift, gets; simpl.
         rewrite Hfile; simpl. rewrite Htext; simpl. rewrite Hkey; simpl.
         intros [= <-]. discriminate. }
    destruct (truthy key) eqn:Hk.
    2: { unfold POST, try_catch, bind, lift, gets; simpl.
         rewrite Hfile; simpl. rewrite Htext; simpl. rewrite Hkey; simpl.
         rewrite Hk; simpl. intros [= <-]. discriminate. }
    rewrite (POST_validated form f key w Hfile Htext Hkey Hk).
    destruct (provider w _) as [response|e] eqn:Hresp; simpl; intros [= <-];
      [|discriminate].
    intros Hok. apply relay_ok in Hok as (p & i & payload & Hfind & Hi & Hd & Hne & ->).
    exists form, f, key, response, p, i, payload.
    repeat split; try assumption; simpl.
    + intros m -> Hm. simpl. apply truthy_true in Hm. rewrite Hm. reflexivity.
    + intros [-> | ->]; reflexivity.
Qed.
End EditHandler.

(** The three checks on sample requests. *)
Lemma edit_validation_order_examples :
  Edit.POST (mkRequest (Normal [("instruction", FString "Corporate headshot.")]))
      (Samples.edit_world (Some "key") (Samples.answer [])) =
    (Normal (NextResponse_json (error_json "Missing file") 400),
     Samples.edit_world (Some "key") (Samples.answer [])) /\
  Edit.POST (Samples.edit_of "photo.png" "") (Samples.edit_world (Some "key") (Samples.answer [])) =
    (Normal (NextResponse_json (error_json "Missing instruction") 400),
     Samples.edit_world (Some "key") (Samples.answer [])) /\
  Edit.POST (Samples.edit_of "photo.png" "Corporate headshot.")
      (Samples.edit_world None (Samples.answer [])) =
    (Normal (NextResponse_json (error_json "Missing GEMINI_API_KEY") 500),
     Samples.edit_world None (Samples.answer [])).
Proof.
  split; [|split].
  - apply (proj1 (edit_validation_order _ _)). reflexivity.
  - apply (proj1 (proj2 (edit_validation_order _ _))); [reflexivity|right; reflexivity].
  - apply (proj2 (proj2 (edit_validation_order _ _))); [reflexivity|reflexivity|left; reflexivity].
Qed.

(** C2, at a request without a file part whose [file] field is the
    text ["photo.png"], with an instruction and a credential in place.
    The cast of line 26 lets the text pass the check [!file] of line
    29; [fileToBase64] then throws, and the handler answers 500 with
    the message of a [TypeError] instead of 400.  The provider is not
    called.  With the field empty the answer is 400 "Missing file". *)
Theorem text_file_field_answers_500 :
  Edit.POST
      (mkRequest (Normal [("file", FString "photo.png");
                          ("instruction", FString "Corporate headshot.")]))
      (Samples.edit_world (Some "key") (Samples.answer [])) =
    (Normal (NextResponse_json (error_json "file.arrayBuffer is not a function") 500),
     Edit.mkWorld (Some "key") (fun _ => Normal (Samples.answer [])) []
       [JsError "file.arrayBuffer is not a function"]) /\
  Edit.POST
      (mkRequest (Normal [("file", FString "");
                          ("instruction", FString "Corporate headshot.")]))
      (Samples.edit_world (Some "key") (Samples.answer [])) =
    (Normal (NextResponse_json (error_json "Missing file") 400),
     Samples.edit_world (Some "key") (Samples.answer [])).
Proof. split; reflexivity. Qed.


(** C1, at a response of the provider with two parts that have inline
    data, the first with an empty payload, the second with the PNG
    signature.  [find] (line 67) stops at the first part, whose data
    is not [undefined]; the guard (line 69) finds its payload falsy;
    and the handler answers 502 "No image returned from model" with a
    JSON body, although the second part carries an image. *)
Theorem empty_payload_answers_no_image :
  fst (Edit.POST (Samples.edit_of "photo.png" "Corporate headshot.")
         (Samples.edit_world (Some "key") Samples.empty_then_image)) =
    Normal (NextResponse_json (error_json "No image returned from model") 502) /\
  Edit.find_part Edit.has_data (Edit.parts_of Samples.empty_then_image) =
    Some (Samples.image_part (Some "image/png") "") /\
  Edit.find_part Edit.has_payload (Edit.parts_of Samples.empty_then_image) =
    Some (Samples.image_part (Some "image/png") "iVBORw==").
Proof. repeat split; vm_compute; reflexivity. Qed.

(** Scenario 2 of the specification: one candidate with a text part
    and a PNG part. *)
Lemma edit_relays_first_inline_part_witness :
  fst (Edit.POST (Samples.edit_of "photo.png" "Corporate headshot.")
         (Samples.edit_world (Some "key")
            (Samples.answer [Samples.text_part "Here it is.";
                             Samples.image_part (Some "image/png") "iVBORw=="]))) =
    Normal (mkResponse 200
              [("Content-Type", "image/png"); ("Cache-Control", "no-store")]
              (RawBody Samples.png_signature)).
Proof.
  destruct (proj1 (edit_relays_first_inline_part
                     [("file", FFile (Samples.photo "photo.png"));
                      ("instruction", FString "Corporate headshot.")]
                     (Samples.photo "photo.png") "key"
                     (Samples.edit_world (Some "key")
                        (Samples.answer [Samples.text_part "Here it is.";
                                         Samples.image_part (Some "image/png") "iVBORw=="]))
                     (Samples.answer [Samples.text_part "Here it is.";
                                      Samples.image_part (Some "image/png") "iVBORw=="])
                     eq_refl ltac:(discriminate) eq_refl ltac:(discriminate) eq_refl)
                  (Samples.image_part (Some "image/png") "iVBORw==") eq_refl)
    as (before & after & i & payload & _ & _ & Hi & Hd & Hpost).
  simpl in Hi. injection Hi as <-. simpl in Hd. injection Hd as <-.
  exact Hpost.
Defined.

Lemma edit_success_is_decoded_image_witness :
  exists form f key response p i payload,
    formData (Samples.edit_of "photo.png" "Corporate headshot.") = Normal form /\
    form_get "file" form = Some (FFile f) /\
    Edit.GEMINI_API_KEY
      (Samples.edit_world (Some "key")
         (Samples.answer [Samples.image_part None "iVBORw=="])) = Some key /\
    Edit.provider
      (Samples.edit_world (Some "key")
         (Samples.answer [Samples.image_part None "iVBORw=="]))
      (Edit.upstream_call key f (Edit.instruction_of form)) = Normal response /\
    Edit.find_part Edit.has_data (Edit.parts_of response) = Some p /\
    Edit.inlineData p = Some i /\ Edit.data i = Some payload /\
    body (Edit.image_response Samples.png_signature "image/png") =
      RawBody (Buffer_from_base64 payload) /\
    (forall m, Edit.mimeType i = Some m -> m <> EmptyString ->
       header "Content-Type"
         (headers (Edit.image_response Samples.png_signature "image/png")) = Some m) /\
    (Edit.mimeType i = None \/ Edit.mimeType i = Some EmptyString ->
       header "Content-Type"
         (headers (Edit.image_response Samples.png_signature "image/png")) = Some "image/png") /\
    header "Cache-Control"
      (headers (Edit.image_response Samples.png_signature "image/png")) = Some "no-store".
Proof.
  exact (edit_success_is_decoded_image
           (Samples.edit_of "photo.png" "Corporate headshot.")
           (Samples.edit_world (Some "key")
              (Samples.answer [Samples.image_part None "iVBORw=="]))
           (Edit.image_response Samples.png_signature "image/png")
           eq_refl eq_refl).
Defined.

(** ** Client controller of the test page *)
Section TestPage.
Import EditTest.
Variable createObjectURL : bytes -> string.

(** C4 (as amended).  When an operation of the test page gets a
    response that is not a success, the selected file and the
    instruction are as before the operation, [loading] is cleared,
    the error is the [error] field of the payload or the generic
    message, and the result reference is [null]: the operation
    cleared it when it started. *)
Theorem failed_operation_keeps_selection (res : Response) (s : State) (f : File) :
  file s = Some f ->
  ok res = false ->
  saveLocally (Normal res) s =
    mkState (file s) (instruction s) None JNull
      (match get "error" (safeJson res) with
       | Some message => message
       | None => JStr "Upload failed"
       end) /\
  editWithGemini createObjectURL (Normal res) s =
    mkState (file s) (instruction s) None JNull
      (match get "error" (safeJson res) with
       | Some JNull | None => JStr "Edit failed (check your /api/photobooth/edit backend)"
       | Some message => message
       end).
Proof.
  intros Hfile Hok.
  destruct s as [selected text busy shown err]; simpl in Hfile; subst selected.
  unfold saveLocally, editWithGemini, saveLocally_settle, editWithGemini_settle.
  simpl. rewrite Hok. simpl. split.
  - unfold isApiError.
    destruct (get "error" (safeJson res)) as [message|]; reflexivity.
  - reflexivity.
Qed.
End TestPage.

Lemma failed_operation_keeps_selection_witness :
  EditTest.saveLocally (Normal (Samples.failure "disk full")) Samples.page_with_result =
    EditTest.mkState (Some (Samples.photo "photo.png")) "Corporate headshot."
      None JNull (JStr "disk full") /\
  EditTest.editWithGemini (fun _ => "blob:result")
      (Normal (Samples.failure "No image returned from model")) Samples.page_with_result =
    EditTest.mkState (Some (Samples.photo "photo.png")) "Corporate headshot."
      None JNull (JStr "No image returned from model").
Proof.
  split.
  - exact (proj1 (failed_operation_keeps_selection (fun _ => "blob:result")
                    (Samples.failure "disk full") Samples.page_with_result
                    (Samples.photo "photo.png") eq_refl eq_refl)).
  - exact (proj2 (failed_operation_keeps_selection (fun _ => "blob:result")
                    (Samples.failure "No image returned from model")
                    Samples.page_with_result
                    (Samples.photo "photo.png") eq_refl eq_refl)).
Defined.

(** C4 (as stated) fails: a result is on display, the next save and the
    next edit both fail, and the result reference is [null] afterwards
    instead of what it was. *)
Lemma failed_operation_clears_result :
  EditTest.resultUrl Samples.page_with_result = JStr "/uploads/old.png" /\
  EditTest.resultUrl
    (EditTest.saveLocally (Normal (Samples.failure "disk full")) Samples.page_with_result) = JNull /\
  EditTest.resultUrl
    (EditTest.editWithGemini (fun _ => "blob:result")
       (Normal (Samples.failure "No image returned from model")) Samples.page_with_result) = JNull.
Proof. repeat split. Qed.

(** ** Camera page: the countdown *)
Section Countdown.
Context {react : React}.
Import Photobooth.

Lemma same_countdown_idle (k : nat) (s s' : State) :
  same_countdown s s' -> idle_at k s -> idle_at k s'.
Proof.
  intros (H1 & H2 & H3 & H4 & H5) (I1 & I2 & I3 & I4 & I5).
  unfold idle_at. rewrite H1, H2, H3, H4, H5. auto.
Qed.

Lemma same_countdown_counting (c : nat) (id : positive) (k : nat) (s s' : State) :
  same_countdown s s' -> counting_at c id k s -> counting_at c id k s'.
Proof.
  intros (H1 & H2 & H3 & H4 & H5) (I1 & I2 & I3 & I4 & I5).
  unfold counting_at. rewrite H1, H2, H3, H4, H5. auto.
Qed.

Lemma same_countdown_render (s : State) : same_countdown s (render s).
Proof. repeat split. Qed.

Lemma same_countdown_toggleCamera (s : State) : same_countdown s (toggleCamera s).
Proof. unfold toggleCamera. destruct (cameraActive s); repeat split. Qed.

Lemma same_countdown_trans (s1 s2 s3 : State) :
  same_countdown s1 s2 -> same_countdown s2 s3 -> same_countdown s1 s3.
Proof.
  intros (H1 & H2 & H3 & H4 & H5) (I1 & I2 & I3 & I4 & I5).
  unfold same_countdown. rewrite I1, I2, I3, I4, I5. auto.
Qed.

Lemma filter_out_only (id : positive) : filter (fun i => i <> id) [id] = [].
Proof. rewrite filter_cons_False by (intros Hne; apply Hne; reflexivity). apply filter_nil. Qed.

(** A call of [startCountdown] during a countdown changes nothing of
    the countdown, and nothing at all when the camera is on. *)
Lemma startCountdown_while_counting (c : nat) (id : positive) (k : nat) (s : State) :
  counting_at c id k s ->
  same_countdown s (startCountdown s) /\
  (streamRef s = true -> videoRef s = true -> startCountdown s = s).
Proof.
  intros (H1 & _). unfold startCountdown. split.
  - destruct (negb (streamRef s) || negb (videoRef s)); [repeat split|].
    rewrite H1. repeat split.
  - intros -> ->. simpl. rewrite H1. reflexivity.
Qed.

Lemma startCountdown_idle (k : nat) (s : State) :
  idle_at k s -> streamRef s = true -> videoRef s = true ->
  counting_at 5 (nextId s) k (startCountdown s).
Proof.
  intros (H1 & H2 & H3 & H4 & H5) Hs Hv.
  unfold startCountdown, clear_pending. rewrite Hs, Hv, H1, H3. simpl.
  unfold counting_at. simpl. rewrite H4, H5. auto.
Qed.

Lemma startCountdown_idle_camera_off (k : nat) (s : State) :
  idle_at k s -> idle_at k (startCountdown s) \/
                 counting_at 5 (nextId s) k (startCountdown s).
Proof.
  intros Hidle. unfold startCountdown.
  destruct (streamRef s) eqn:Hs; destruct (videoRef s) eqn:Hv; simpl;
    try solve [left; apply (same_countdown_idle k s); [repeat split|exact Hidle]].
  right. pose proof (startCountdown_idle k s Hidle Hs Hv) as Hc.
  unfold startCountdown in Hc. rewrite Hs, Hv in Hc. exact Hc.
Qed.

Lemma tick_idle (k : nat) (s : State) : idle_at k s -> tick s = s.
Proof. intros (_ & _ & _ & H4 & _). unfold tick. rewrite H4. reflexivity. Qed.

(** Called with a count above one, the updater only lowers the count,
    however often it is called. *)
Lemma on_interval_counting (c : nat) (s : State) :
  countdown s = Some (S (S c)) ->
  on_interval s = setCounting (isCountingDown s) (Some (S c)) s.
Proof.
  intros H2. unfold on_interval, updater_runs. rewrite H2.
  destruct strictMode; simpl; reflexivity.
Qed.

(** Called with the count one, the updater clears the interval the
    first time and calls [captureFrame] every time. *)
Lemma on_interval_last (id : positive) (k : nat) (s : State) :
  counting_at 1 id k s -> idle_at (k + updater_runs) (on_interval s).
Proof.
  intros (H1 & H2 & H3 & H4 & H5).
  unfold on_interval, updater_runs. rewrite H2.
  destruct strictMode; simpl; rewrite H3; simpl;
    unfold idle_at; simpl; rewrite H4, H5, filter_out_only;
    repeat split; lia.
Qed.

Lemma tick_counting (c : nat) (id : positive) (k : nat) (s : State) :
  counting_at (S (S c)) id k s -> counting_at (S c) id k (tick s).
Proof.
  intros (H1 & H2 & H3 & H4 & H5).
  unfold tick, fire. rewrite H4. simpl. rewrite H4.
  rewrite bool_decide_eq_true_2 by (apply list_elem_of_singleton; reflexivity).
  rewrite (on_interval_counting c s H2).
  unfold counting_at. simpl. rewrite H1, H3, H4, H5. auto.
Qed.

Lemma tick_last (id : positive) (k : nat) (s : State) :
  counting_at 1 id k s -> idle_at (k + updater_runs) (tick s).
Proof.
  intros Hc. pose proof Hc as (H1 & H2 & H3 & H4 & H5).
  unfold tick, fire. rewrite H4. simpl. rewrite H4.
  rewrite bool_decide_eq_true_2 by (apply list_elem_of_singleton; reflexivity).
  apply (on_interval_last id), Hc.
Qed.

(** During a countdown every event but the last second leaves one
    interval set and no frame captured. *)
Lemma step_counting (c : nat) (id : positive) (k : nat) (s : State) (e : Event) :
  counting_at (S c) id k s ->
  match e with
  | Tick =>
      match c with
      | 0 => idle_at (k + updater_runs) (step s e)
      | S c' => counting_at (S c') id k (step s e)
      end
  | _ => counting_at (S c) id k (step s e)
  end.
Proof.
  intros Hc. destruct e; unfold step.
  - eapply same_countdown_counting; [|exact Hc].
    eapply same_countdown_trans; [|apply same_countdown_render].
    apply (startCountdown_while_counting _ _ _ _ Hc).
  - destruct c as [|c'].
    + eapply same_countdown_idle; [apply same_countdown_render|].
      apply (tick_last id), Hc.
    + eapply same_countdown_counting; [apply same_countdown_render|].
      apply tick_counting, Hc.
  - eapply same_countdown_counting; [|exact Hc].
    eapply same_countdown_trans; [|apply same_countdown_render].
    apply same_countdown_toggleCamera.
Qed.

Lemma run_counting (events : list Event) :
  forall (c : nat) (id : positive) (k : nat) (s : State),
    counting_at c id k s -> ticks events < c ->
    counting_at (c - ticks events) id k (run s events).
Proof.
  induction events as [|e events IH]; intros c id k s Hc Hlt.
  - simpl. rewrite Nat.sub_0_r. exact Hc.
  - destruct c as [|c]; [simpl in Hlt; lia|].
    pose proof (step_counting c id k s e Hc) as Hstep.
    change (run s (e :: events)) with (run (step s e) events).
    destruct e; simpl in Hlt |- *.
    + apply (IH (S c)); [exact Hstep|lia].
    + destruct c as [|c']; [lia|]. apply (IH (S c')); [exact Hstep|lia].
    + apply (IH (S c)); [exact Hstep|lia].
Qed.

Lemma step_consistent (s : State) (e : Event) :
  consistent s -> consistent (step s e).
Proof.
  intros [k [Hidle|(c & id & Hc)]].
  - destruct e; unfold step.
    + destruct (startCountdown_idle_camera_off k s Hidle) as [Hi|Hc].
      * exists k. left. eapply same_countdown_idle; [apply same_countdown_render|exact Hi].
      * exists k. right. exists 4, (nextId s).
        eapply same_countdown_counting; [apply same_countdown_render|exact Hc].
    + exists k. left. rewrite (tick_idle k s Hidle).
      eapply same_countdown_idle; [apply same_countdown_render|exact Hidle].
    + exists k. left. eapply same_countdown_idle; [|exact Hidle].
      eapply same_countdown_trans; [apply same_countdown_toggleCamera|].
      apply same_countdown_render.
  - pose proof (step_counting c id k s e Hc) as Hstep.
    destruct e; try (exists k; right; exists c, id; exact Hstep).
    destruct c as [|c'].
    + exists (k + updater_runs). left. exact Hstep.
    + exists k. right. exists c', id. exact Hstep.
Qed.

Lemma run_consistent (events : list Event) (s : State) :
  consistent s -> consistent (run s events).
Proof.
  revert s. induction events as [|e events IH]; intros s Hs; [exact Hs|].
  apply (IH (step s e)), step_consistent, Hs.
Qed.

Lemma initial_consistent : consistent initial.
Proof. exists 0. left. repeat split. Qed.

(** With no interval set, time passes without effect. *)
Lemma ticks_without_interval (n : nat) (s : State) :
  intervals s = [] -> Nat.iter n tick s = s.
Proof.
  intros Hs. induction n as [|n IH]; [reflexivity|].
  simpl. rewrite IH. unfold tick. rewrite Hs. reflexivity.
Qed.

Lemma unmount_clears (s : State) :
  consistent s -> intervals (unmount s) = [] /\ captures (unmount s) = captures s.
Proof.
  intros [k [(_ & _ & H3 & H4 & _)|(c & id & _ & _ & H3 & H4 & _)]];
    unfold unmount, clear_pending; simpl; rewrite H3; simpl; rewrite H4.
  - auto.
  - rewrite filter_out_only. auto.
Qed.

Lemma idle_when_not_counting (s : State) :
  consistent s -> isCountingDown s = false -> idle_at (captures s) s.
Proof.
  intros [k [Hidle|(c & id & H1 & _)]] Hnot; [|congruence].
  destruct Hidle as (? & ? & ? & ? & <-). repeat split; assumption.
Qed.

(** The countdown, however React runs the page.  From any state the
    page can reach with the camera on and no countdown active, a call
    of [startCountdown] sets one interval.  Until five seconds have
    passed, whatever else happens (further calls of [startCountdown],
    camera toggles), that interval is the only one, the count is five
    minus the seconds passed and no frame is captured; a further call
    of [startCountdown] changes nothing of the countdown, and nothing
    at all while the camera is on.  The fifth second clears the
    interval, ends the countdown and calls [captureFrame] as often as
    React calls the updater: once, or twice under [<StrictMode>] in
    development; time passing afterwards captures no more.  In every
    reachable state, after the cleanup of the mount effect no interval
    is left and time passing captures nothing. *)
Lemma countdown_single_flight :
  (forall before during : list Event,
     let s0 := run initial before in
     let s1 := run (step s0 StartCountdown) during in
     streamRef s0 = true -> videoRef s0 = true -> isCountingDown s0 = false ->
     ticks during < 5 ->
     counting_at (5 - ticks during) (nextId s0) (captures s0) s1 /\
     same_countdown s1 (startCountdown s1) /\
     (streamRef s1 = true -> videoRef s1 = true -> startCountdown s1 = s1) /\
     (ticks during = 4 ->
        idle_at (captures s0 + updater_runs) (step s1 Tick) /\
        forall n,
          captures (Nat.iter n tick (step s1 Tick)) = captures s0 + updater_runs)) /\
  (forall (events : list Event) (n : nat),
     intervals (unmount (run initial events)) = [] /\
     captures (Nat.iter n tick (unmount (run initial events)))
       = captures (run initial events)).
Proof.
  split.
  - intros before during s0 s1 Hs Hv Hnot Hlt.
    assert (consistent s0) as Hcons by apply run_consistent, initial_consistent.
    pose proof (idle_when_not_counting s0 Hcons Hnot) as Hidle.
    assert (counting_at 5 (nextId s0) (captures s0) (step s0 StartCountdown)) as Hstart.
    { unfold step. eapply same_countdown_counting; [apply same_countdown_render|].
      apply startCountdown_idle; assumption. }
    pose proof (run_counting during 5 _ _ _ Hstart Hlt) as Hrun. fold s1 in Hrun.
    split; [exact Hrun|].
    destruct (startCountdown_while_counting _ _ _ _ Hrun) as [Hsame Hnone].
    split; [exact Hsame|]. split; [exact Hnone|].
    intros H4. rewrite H4 in Hrun. change (5 - 4) with 1 in Hrun.
    pose proof (step_counting 0 _ _ s1 Tick Hrun) as Hlast. simpl in Hlast.
    split; [exact Hlast|].
    intros n. destruct Hlast as (_ & _ & _ & Hint & Hcap).
    rewrite ticks_without_interval by exact Hint. exact Hcap.
  - intros events n.
    destruct (unmount_clears (run initial events)) as [Hint Hcap].
    { apply run_consistent, initial_consistent. }
    split; [exact Hint|].
    rewrite ticks_without_interval by exact Hint. exact Hcap.
Qed.
End Countdown.

(** Scenario 4 of the specification on a production build: the camera
    is turned on, the countdown is started, and it is started again
    twice while four seconds pass. *)
Lemma countdown_single_flight_production :
  Photobooth.counting_at 1 1%positive 0
    (Photobooth.run Photobooth.initial
       [Photobooth.ToggleCamera; Photobooth.StartCountdown;
        Photobooth.StartCountdown; Photobooth.Tick; Photobooth.Tick;
        Photobooth.StartCountdown; Photobooth.Tick; Photobooth.Tick]) /\
  Photobooth.idle_at 1
    (Photobooth.run Photobooth.initial
       [Photobooth.ToggleCamera; Photobooth.StartCountdown;
        Photobooth.StartCountdown; Photobooth.Tick; Photobooth.Tick;
        Photobooth.StartCountdown; Photobooth.Tick; Photobooth.Tick;
        Photobooth.Tick]).
Proof.
  destruct (proj1 countdown_single_flight
              [Photobooth.ToggleCamera]
              [Photobooth.StartCountdown; Photobooth.Tick; Photobooth.Tick;
               Photobooth.StartCountdown; Photobooth.Tick; Photobooth.Tick]
              eq_refl eq_refl eq_refl ltac:(simpl; lia))
    as (Hcounting & _ & _ & Hfifth).
  split; [exact Hcounting|exact (proj1 (Hfifth eq_refl))].
Qed.

(** C8, on a development build under [<StrictMode>]: the camera is
    turned on, the countdown is started once and five seconds pass.
    [captureFrame] is called twice for this one countdown, since it
    is called from inside the updater handed to [setCountdown]; on a
    production build the same events call it once. *)
Theorem strict_mode_captures_twice :
  Photobooth.captures
    (Photobooth.run (react := Reference.development) Photobooth.initial
       [Photobooth.ToggleCamera; Photobooth.StartCountdown;
        Photobooth.Tick; Photobooth.Tick; Photobooth.Tick; Photobooth.Tick;
        Photobooth.Tick]) = 2 /\
  Photobooth.intervals
    (Photobooth.run (react := Reference.development) Photobooth.initial
       [Photobooth.ToggleCamera; Photobooth.StartCountdown;
        Photobooth.Tick; Photobooth.Tick; Photobooth.Tick; Photobooth.Tick;
        Photobooth.Tick]) = [] /\
  Photobooth.captures
    (Photobooth.run (react := Reference.production) Photobooth.initial
       [Photobooth.ToggleCamera; Photobooth.StartCountdown;
        Photobooth.Tick; Photobooth.Tick; Photobooth.Tick; Photobooth.Tick;
        Photobooth.Tick]) = 1.
Proof. repeat split. Qed.

(** * Further properties of the handlers and the pages *)

(** ** Upload handler: every request *)
Section UploadReplies.
Context {rt : Runtime}.
Import Upload.

(** The three ways a request ends. *)
Lemma upload_reply_cases (req : NextRequest) (w : World) :
  (exists url w',
     POST req w = (Normal (NextResponse_json (JObj [("url", JStr url)]) 200), w') /\
     console w' = console w /\ drawn w' = S (drawn w)) \/
  POST req w = (Normal (NextResponse_json (error_json "Missing file") 400), w) \/
  (exists e w',
     POST req w =
       (Normal (NextResponse_json (error_json (message_or "Upload failed" e)) 500), w') /\
     console w' = console w ++ [e]).
Proof.
  destruct req as [[form|e]].
  2: { right. right. exists e. eexists.
       unfold POST, try_catch, bind, lift, console_error, modify, ret; simpl.
       split; reflexivity. }
  destruct (form_get "file" form) as [[s|f]|] eqn:Hget.
  - unfold POST, try_catch, bind, lift, gets, ret, console_error, modify; simpl.
    rewrite Hget; simpl. destruct (truthy s); simpl.
    + right. right. exists (JsError "file.arrayBuffer is not a function").
      eexists. split; reflexivity.
    + right. left. reflexivity.
  - destruct (upload_trace form f w Hget)
      as [(e & ->)|[(e & d1 & _ & ->)
         |(d1 & d2 & n & seen & d & _ & _ & _ & _ & _ & _ & _ & _
           & [[_ ->]|(_ & e & ->)])]].
    + right. right. exists e. eexists. split; reflexivity.
    + right. right. exists e. eexists. split; reflexivity.
    + left. eexists. eexists. split; [reflexivity|]. split; reflexivity.
    + right. right. exists e. eexists. split; reflexivity.
  - unfold POST, try_catch, bind, lift, gets, ret; simpl.
    rewrite Hget; simpl. right. left. reflexivity.
Qed.

(** X1.  The upload handler answers every request: it never lets an
    exception out, the status is 200, 400 or 500, and the body is
    JSON. *)
Theorem upload_always_answers (req : NextRequest) (w : World) :
  exists resp j,
    fst (POST req w) = Normal resp /\
    (status resp = 200 \/ status resp = 400 \/ status resp = 500)%Z /\
    body resp = JsonBody j.
Proof.
  destruct (upload_reply_cases req w)
    as [(url & w' & -> & _)|[->|(e & w' & -> & _)]];
    eexists; eexists; simpl; (split; [reflexivity|]); split; auto.
Qed.

(** X2.  Without a file (no [file] field, or an empty text field of that
    name) the answer is 400 "Missing file" and nothing else happens: no
    directory is made, no file is written, no identifier is drawn and
    nothing is logged. *)
Theorem upload_without_file_changes_nothing (form : FormData) (w : World) :
  entry_truthy (form_get "file" form) = false ->
  POST (mkRequest (Normal form)) w =
    (Normal (NextResponse_json (error_json "Missing file") 400), w).
Proof.
  intros Hfile.
  unfold POST, try_catch, bind, lift; simpl.
  destruct (form_get "file" form) as [[s|f]|]; simpl in *.
  - rewrite Hfile. reflexivity.
  - discriminate.
  - reflexivity.
Qed.

(** X3.  A failure is reported once and by its message.  When
    [req.formData()] throws, the answer is 500 with the message of the
    error (or "Upload failed" when the thrown value is no [Error]), the
    error is logged and the disk is as before.  In general the answer
    is 500 exactly when one error was logged, and the body carries its
    message; otherwise nothing is logged. *)
Theorem upload_failure_reports_message (req : NextRequest) (w : World) :
  (forall e, formData req = Throw e ->
     POST req w =
       (Normal (NextResponse_json (error_json (message_or "Upload failed" e)) 500),
        mkWorld (cwd w) (clock w) (entropy w) (drawn w) (disk w) (observable w)
          (console w ++ [e]))) /\
  (forall resp, fst (POST req w) = Normal resp ->
     (status resp = 500%Z ->
        exists e, console (snd (POST req w)) = console w ++ [e] /\
                  body resp = JsonBody (error_json (message_or "Upload failed" e))) /\
     (status resp <> 500%Z -> console (snd (POST req w)) = console w)).
Proof.
  split.
  - intros e He. destruct req as [c]. simpl in He. subst c. reflexivity.
  - intros resp.
    destruct (upload_reply_cases req w)
      as [(url & w' & -> & Hc & _)|[->|(e & w' & -> & Hc)]]; simpl; intros [= <-]; simpl.
    + split; [discriminate|]. intros _. exact Hc.
    + split; [discriminate|]. reflexivity.
    + split; [|congruence]. intros _. exists e. split; [exact Hc|reflexivity].
Qed.

(** X4.  When the handler answers 200 to a request with a file part,
    the [url] is [/uploads/] followed by the clock in decimal, a dash,
    the identifier drawn, a dot and the extension; exactly one
    identifier was drawn and nothing was logged. *)
Theorem upload_url_names_stored_file
    (form : FormData) (f : File) (w : World) (resp : NextResponse) :
  form_get "file" form = Some (FFile f) ->
  fst (POST (mkRequest (Normal form)) w) = Normal resp ->
  status resp = 200%Z ->
  body resp =
    JsonBody (JObj [("url", JStr ("/uploads/" +:+ pretty (clock w) +:+ "-" +:+
                                  entropy w (drawn w) +:+ "." +:+ extension (FFile f)))]) /\
  drawn (snd (POST (mkRequest (Normal form)) w)) = S (drawn w) /\
  console (snd (POST (mkRequest (Normal form)) w)) = console w.
Proof.
  intros Hget Hrun Hok. split.
  - apply (upload_success_names_stored_file form f w resp Hget Hrun Hok).
  - destruct (upload_reply_cases (mkRequest (Normal form)) w)
      as [(url & w' & Heq & Hc & Hd)|[Heq|(e & w' & Heq & _)]];
      rewrite Heq in Hrun |- *; simpl in *; injection Hrun as <-; simpl in Hok;
      try discriminate.
    split; assumption.
Qed.
End UploadReplies.

(** ** Upload handler: extensions and stored names *)

Lemma split_pieces_without_separator (c : ascii) (s piece : string) :
  In piece (split c s) -> includes c piece = false.
Proof.
  revert piece. induction s as [|a r IH]; simpl; intros piece Hin.
  - destruct Hin as [<-|[]]. reflexivity.
  - destruct (Ascii.eqb a c) eqn:Hac.
    + destruct Hin as [<-|Hin]; [reflexivity|apply IH, Hin].
    + pose proof (split_not_nil c r) as Hne.
      destruct (split c r) as [|h t]; [congruence|].
      destruct Hin as [<-|Hin].
      * simpl. rewrite Hac. apply IH. left. reflexivity.
      * apply IH. right. exact Hin.
Qed.

Lemma last_In {A} (l : list A) (x : A) : last l = Some x -> In x l.
Proof.
  induction l as [|y l IH]; [discriminate|].
  destruct l as [|z l]; simpl in *.
  - intros [= ->]. left. reflexivity.
  - intros Hl. right. apply IH, Hl.
Qed.

Lemma includes_app (c : ascii) (a b : string) :
  includes c (a +:+ b) = includes c a || includes c b.
Proof.
  induction a as [|x a IH]; simpl; [reflexivity|].
  rewrite IH. apply orb_assoc.
Qed.

Lemma split_single_piece (c : ascii) (s h : string) :
  split c s = [h] -> includes c s = false.
Proof.
  intros Hs. pose proof (split_singleton _ _ _ Hs) as ->.
  apply (split_pieces_without_separator c h). rewrite Hs. left. reflexivity.
Qed.

(** What follows the last separator is the last piece. *)
Lemma last_split_after_separator (c : ascii) (a b : string) :
  last (split c (a +:+ String c b)) = last (split c b).
Proof.
  induction a as [|x a IH].
  - simpl. rewrite Ascii.eqb_refl.
    pose proof (split_not_nil c b). destruct (split c b); [congruence|reflexivity].
  - change (String x a +:+ String c b) with (String x (a +:+ String c b)).
    simpl split. rewrite <- IH.
    pose proof (split_not_nil c (a +:+ String c b)) as Hne.
    destruct (split c (a +:+ String c b)) as [|h t] eqn:Hs; [congruence|].
    destruct (Ascii.eqb x c); [reflexivity|].
    destruct t as [|h' t']; [|reflexivity].
    exfalso. apply split_single_piece in Hs.
    rewrite includes_app in Hs. simpl in Hs. rewrite Ascii.eqb_refl in Hs.
    rewrite orb_true_r in Hs. discriminate.
Qed.

Lemma append_inv_head (s a b : string) : s +:+ a = s +:+ b -> a = b.
Proof.
  induction s as [|x s IH]; simpl; [auto|].
  intros [= H]. apply IH, H.
Qed.

Lemma append_same_length (u1 u2 r1 r2 : string) :
  String.length u1 = String.length u2 ->
  u1 +:+ r1 = u2 +:+ r2 -> u1 = u2 /\ r1 = r2.
Proof.
  revert u2. induction u1 as [|x u1 IH]; intros [|y u2]; simpl; try discriminate.
  - auto.
  - intros [= Hlen] [= -> Heq]. destruct (IH u2 Hlen Heq) as [-> ->]. auto.
Qed.

Section UploadExtensions.
Context {rt : Runtime}.
Import Upload.

(** X5.  For a file named [base.ext], with [ext] not empty and without
    a dot, the extension of the stored name is [ext] in lower case,
    whatever dots [base] has.  And whatever the file is called, the
    text that is lower-cased into the extension has no dot in it. *)
Theorem extension_is_text_after_last_dot (f : File) :
  (forall base ext,
     name f = Some (base +:+ "." +:+ ext) ->
     ext <> EmptyString -> includes "." ext = false ->
     extension (FFile f) = toLowerCase ext) /\
  includes "." (or_else (last_segment (FFile f)) "png") = false.
Proof.
  split.
  - intros base ext Hname Hne Hdot.
    assert (last (split "." (base +:+ "." +:+ ext)) = Some ext) as Hlast.
    { change (base +:+ "." +:+ ext) with (base +:+ String "."%char ext).
      rewrite last_split_after_separator, (split_without_separator _ _ Hdot).
      reflexivity. }
    unfold extension, last_segment, pop. rewrite Hname.
    change (Some (base +:+ "." +:+ ext) ≫= (fun n => last (split "." n)))
      with (last (split "." (base +:+ "." +:+ ext))).
    rewrite Hlast. simpl. destruct ext; [congruence|reflexivity].
  - unfold or_else, last_segment, pop.
    destruct (name f) as [n|]; simpl; [|reflexivity].
    destruct (last (split "." n)) as [seg|] eqn:Hlast; [|reflexivity].
    destruct (truthy seg); [|reflexivity].
    apply (split_pieces_without_separator "." n), last_In, Hlast.
Qed.

(** X6.  Two stored names made at the same clock value from
    identifiers of the same length are equal only when the identifiers
    and the extensions are equal: uploads in the same millisecond
    collide only if [randomUUID] repeats itself. *)
Theorem stored_names_collide_only_on_same_uuid
    (now : Z) (uuid1 uuid2 ext1 ext2 : string) :
  String.length uuid1 = String.length uuid2 ->
  stored_name now uuid1 ext1 = stored_name now uuid2 ext2 ->
  uuid1 = uuid2 /\ ext1 = ext2.
Proof.
  unfold stored_name. intros Hlen Heq.
  apply append_inv_head in Heq. simpl in Heq. injection Heq as Heq.
  destruct (append_same_length _ _ _ _ Hlen Heq) as [Huuid Hext].
  simpl in Hext. injection Hext as Hext. auto.
Qed.
End UploadExtensions.

(** ** Edit handler: every request *)
Section EditReplies.
Context {rt : Runtime}.
Import Edit.

(** A request is turned down before the provider is called, or it
    passes the three checks with a file part. *)
Lemma edit_reply_cases (req : NextRequest) (w : World) :
  (exists msg st w',
     POST req w = (Normal (NextResponse_json (error_json msg) st), w') /\
     (st = 400 \/ st = 500)%Z /\ invocations w' = invocations w) \/
  (exists form f key,
     formData req = Normal form /\
     form_get "file" form = Some (FFile f) /\
     truthy (instruction_of form) = true /\
     GEMINI_API_KEY w = Some key /\ truthy key = true).
Proof.
  destruct req as [[form|e]];
    unfold POST, try_catch, bind, lift, gets, ret, console_error, modify; simpl.
  2: { left. do 3 eexists. split; [reflexivity|]. split; [right|]; reflexivity. }
  destruct (form_get "file" form) as [[s|f]|] eqn:Hfile; simpl.
  - left. destruct (truthy s); simpl.
    2: { do 3 eexists. split; [reflexivity|]. split; [left|]; reflexivity. }
    destruct (truthy (instruction_of form)); simpl.
    2: { do 3 eexists. split; [reflexivity|]. split; [left|]; reflexivity. }
    destruct (GEMINI_API_KEY w) as [key|]; simpl.
    2: { do 3 eexists. split; [reflexivity|]. split; [right|]; reflexivity. }
    destruct (truthy key); simpl;
      do 3 eexists; (split; [reflexivity|]); (split; [right|]); reflexivity.
  - destruct (truthy (instruction_of form)) eqn:Htext; simpl.
    2: { left. do 3 eexists. split; [reflexivity|]. split; [left|]; reflexivity. }
    destruct (GEMINI_API_KEY w) as [key|] eqn:Hkey; simpl.
    2: { left. do 3 eexists. split; [reflexivity|]. split; [right|]; reflexivity. }
    destruct (truthy key) eqn:Hk; simpl.
    2: { left. do 3 eexists. split; [reflexivity|]. split; [right|]; reflexivity. }
    right. exists form, f, key. auto.
  - left. do 3 eexists. split; [reflexivity|]. split; [left|]; reflexivity.
Qed.

Lemma relay_shape (response : GenerateContentResponse) :
  (exists payload contentType, relay response = image_response payload contentType) \/
  relay response = no_image.
Proof.
  destruct (relay_cases response) as [[_ ->]|(p & i & payload & _ & _ & _ & ->)];
    [right; reflexivity|].
  destruct (truthy payload); [left; eauto|right; reflexivity].
Qed.

(** X7.  The edit handler answers every request: it never lets an
    exception out, and the answer is either 200 with raw octets as
    body or 400, 500 or 502 with a JSON body of the form
    [{ error: message }]. *)
Theorem edit_always_answers (req : NextRequest) (w : World) :
  exists resp,
    fst (POST req w) = Normal resp /\
    ((status resp = 200%Z /\ exists b, body resp = RawBody b) \/
     ((status resp = 400 \/ status resp = 500 \/ status resp = 502)%Z /\
      exists msg, body resp = JsonBody (error_json msg))).
Proof.
  destruct (edit_reply_cases req w)
    as [(msg & st & w' & -> & Hst & _)|(form & f & key & Hform & Hfile & Htext & Hkey & Hk)].
  - eexists. split; [reflexivity|]. right. simpl. split; [tauto|eauto].
  - destruct req as [c]. simpl in Hform. subst c.
    rewrite (POST_validated form f key w Hfile Htext Hkey Hk).
    destruct (provider w _) as [response|e]; simpl.
    + eexists. split; [reflexivity|].
      destruct (relay_shape response) as [(payload & ct & ->)| ->]; simpl.
      * left. eauto.
      * right. split; [tauto|eauto].
    + eexists. split; [reflexivity|]. right. simpl. split; [tauto|eauto].
Qed.

(** X8.  The handler calls the provider at most once for a request and
    never again after a failure: an answer of 200 or 502 comes after
    exactly one call, an answer of 400 after none, and no answer comes
    after more than one. *)
Theorem edit_calls_provider_at_most_once
    (req : NextRequest) (w : World) (resp : NextResponse) :
  fst (POST req w) = Normal resp ->
  (invocations (snd (POST req w)) = invocations w \/
   exists call, invocations (snd (POST req w)) = invocations w ++ [call]) /\
  (status resp = 200%Z \/ status resp = 502%Z ->
   exists call, invocations (snd (POST req w)) = invocations w ++ [call]) /\
  (status resp = 400%Z -> invocations (snd (POST req w)) = invocations w).
Proof.
  destruct (edit_reply_cases req w)
    as [(msg & st & w' & -> & Hst & Hinv)|(form & f & key & Hform & Hfile & Htext & Hkey & Hk)].
  - simpl. intros [= <-]. simpl. split; [left; exact Hinv|]. split.
    + intros [H|H]; destruct Hst; congruence.
    + intros _. exact Hinv.
  - destruct req as [c]. simpl in Hform. subst c.
    rewrite (POST_validated form f key w Hfile Htext Hkey Hk).
    destruct (provider w _) as [response|e]; simpl; intros [= <-]; simpl.
    + split; [right; eauto|]. split; [eauto|].
      intros H400. destruct (relay_status response); congruence.
    + split; [right; eauto|]. split; [eauto|discriminate].
Qed.

(** X9.  When the call to the provider throws, the handler answers 500
    with the message of the error (or "Server error" when the thrown
    value is no [Error]), logs the error once, and does not call
    again. *)
Theorem provider_failure_is_reported
    (form : FormData) (f : File) (key : string) (w : World) (e : Thrown) :
  form_get "file" form = Some (FFile f) ->
  instruction_of form <> EmptyString ->
  GEMINI_API_KEY w = Some key ->
  key <> EmptyString ->
  provider w (upstream_call key f (instruction_of form)) = Throw e ->
  fst (POST (mkRequest (Normal form)) w) =
    Normal (NextResponse_json (error_json (message_or "Server error" e)) 500) /\
  invocations (snd (POST (mkRequest (Normal form)) w)) =
    invocations w ++ [upstream_call key f (instruction_of form)] /\
  console (snd (POST (mkRequest (Normal form)) w)) = console w ++ [e].
Proof.
  intros Hfile Htext Hkey Hk Hthrow.
  rewrite (POST_validated form f key w Hfile); try assumption;
    try (apply truthy_true; assumption).
  rewrite Hthrow. simpl. auto.
Qed.

(** X10.  A text field named [file] is not a file: when it is not empty
    and the instruction and the credential are in place, reading its
    octets throws, the answer is 500, one error is logged and the
    provider is not called. *)
Theorem text_field_as_file_is_an_error (form : FormData) (s key : string) (w : World) :
  form_get "file" form = Some (FString s) ->
  s <> EmptyString ->
  instruction_of form <> EmptyString ->
  GEMINI_API_KEY w = Some key ->
  key <> EmptyString ->
  exists resp e,
    fst (POST (mkRequest (Normal form)) w) = Normal resp /\
    status resp = 500%Z /\
    invocations (snd (POST (mkRequest (Normal form)) w)) = invocations w /\
    console (snd (POST (mkRequest (Normal form)) w)) = console w ++ [e].
Proof.
  intros Hfile Hs Htext Hkey Hk.
  apply truthy_true in Hs, Htext, Hk.
  unfold POST, try_catch, bind, lift, gets, ret, console_error, modify; simpl.
  rewrite Hfile; simpl. rewrite Hs, Htext; simpl. rewrite Hkey; simpl. rewrite Hk; simpl.
  do 2 eexists. repeat split.
Qed.

(** X11.  What goes out comes back: when the provider answers with the
    very image part it was sent, and decoding undoes encoding on the
    octets of the file, the handler answers 200 with the octets of the
    uploaded file, under the type of the file, or [image/jpeg] when the
    file has none.  When the encoding is the empty string the answer
    is 502 instead. *)
Theorem echoed_image_comes_back
    (form : FormData) (f : File) (key : string) (w : World) :
  form_get "file" form = Some (FFile f) ->
  instruction_of form <> EmptyString ->
  GEMINI_API_KEY w = Some key ->
  key <> EmptyString ->
  provider w (upstream_call key f (instruction_of form)) =
    Normal (mkGenResponse
              (Some [mkCandidate
                       (Some (mkContent (Some "model")
                                (parts (user_turn (or_else (Some (type f)) "image/jpeg")
                                          (toString_base64 (octets f))
                                          (instruction_of form)))))])) ->
  Buffer_from_base64 (toString_base64 (octets f)) = octets f ->
  fst (POST (mkRequest (Normal form)) w) =
    Normal (if truthy (toString_base64 (octets f))
            then mkResponse 200
                   [("Content-Type", if truthy (type f) then type f else "image/jpeg");
                    ("Cache-Control", "no-store")]
                   (RawBody (octets f))
            else NextResponse_json (error_json "No image returned from model") 502).
Proof.
  intros Hfile Htext Hkey Hk Hecho Hround.
  rewrite (POST_validated form f key w Hfile); try assumption;
    try (apply truthy_true; assumption).
  rewrite Hecho. simpl. unfold relay. simpl.
  destruct (truthy (toString_base64 (octets f))); [|reflexivity].
  rewrite Hround. unfold image_response.
  destruct (truthy (type f)) eqn:Ht; simpl; rewrite ?Ht; reflexivity.
Qed.
End EditReplies.

(** ** Test page: every response *)
Section TestPageOperations.
Import EditTest.
Variable createObjectURL : bytes -> string.

(** X12.  Neither operation of the test page ever changes the selected
    file or the instruction, and with no file selected an operation
    does nothing at all.  With a file selected, an operation never
    ends with both a result and an error.  It clears [loading] exactly
    when the request was answered and, for an edit that succeeded, the
    body could be read; when [fetch] rejects, or [res.blob()] does
    after a success, nothing catches the rejection: [loading] stays
    set and neither a result nor an error is shown. *)
Theorem operations_end_settled (fetched : Completion Response) (s : State) :
  file (saveLocally fetched s) = file s /\
  instruction (saveLocally fetched s) = instruction s /\
  file (editWithGemini createObjectURL fetched s) = file s /\
  instruction (editWithGemini createObjectURL fetched s) = instruction s /\
  (file s = None ->
     saveLocally fetched s = s /\ editWithGemini createObjectURL fetched s = s) /\
  (file s <> None ->
     (loading (saveLocally fetched s) = None <-> exists res, fetched = Normal res) /\
     (loading (editWithGemini createObjectURL fetched s) = None <->
        exists res, fetched = Normal res /\
                    (ok res = false \/ exists octets, blob res = Normal octets)) /\
     (loading (saveLocally fetched s) <> None ->
        loading (saveLocally fetched s) = Some upload /\
        resultUrl (saveLocally fetched s) = JNull /\
        error (saveLocally fetched s) = JNull) /\
     (loading (editWithGemini createObjectURL fetched s) <> None ->
        loading (editWithGemini createObjectURL fetched s) = Some edit /\
        resultUrl (editWithGemini createObjectURL fetched s) = JNull /\
        error (editWithGemini createObjectURL fetched s) = JNull) /\
     (resultUrl (saveLocally fetched s) = JNull \/ error (saveLocally fetched s) = JNull) /\
     (resultUrl (editWithGemini createObjectURL fetched s) = JNull \/
      error (editWithGemini createObjectURL fetched s) = JNull)).
Proof.
  destruct s as [[f|] text busy shown err];
    unfold saveLocally, editWithGemini, saveLocally_settle, editWithGemini_settle; simpl.
  2: { repeat split; auto; congruence. }
  do 4 (split; [destruct fetched as [res|e]; simpl;
                try (destruct (ok res); simpl);
                try (destruct (isUploadOk (safeJson res)); simpl);
                try (destruct (blob res); simpl); reflexivity|]).
  split; [discriminate|]. intros _.
  destruct fetched as [res|e]; simpl.
  - destruct (ok res) eqn:Hok; simpl.
    + split.
      { destruct (isUploadOk (safeJson res)); simpl; split; eauto. }
      destruct (blob res) as [octets|e] eqn:Hblob; simpl.
      * split; [split; eauto|].
        destruct (isUploadOk (safeJson res)); simpl; repeat split; auto; congruence.
      * split.
        { split; [discriminate|]. intros (res' & [= <-] & [Hno|(octets & Hsome)]); congruence. }
        destruct (isUploadOk (safeJson res)); simpl; repeat split; auto; congruence.
    + repeat split; eauto; congruence.
  - split; [split; [discriminate|intros (res & Hres); discriminate]|].
    split; [split; [discriminate|intros (res & Hres & _); discriminate]|].
    repeat split; auto.
Qed.

(** X13.  A failure whose payload has no [error] field gets the generic
    message: a body that does not parse, [null], a string, a number,
    an array or an object without that field.  A payload whose
    [error] is [null] gets the generic message from the edit
    operation, while the save operation ends with no error shown. *)
Theorem failure_without_message_gets_fallback (res : Response) (s : State) (f : File) :
  file s = Some f ->
  ok res = false ->
  (json res = None \/
   (exists j, json res = Some j /\ forall fields, j <> JObj fields) \/
   (exists fields, json res = Some (JObj fields) /\ field "error" fields = None) ->
     error (saveLocally (Normal res) s) = JStr "Upload failed" /\
     error (editWithGemini createObjectURL (Normal res) s) =
       JStr "Edit failed (check your /api/photobooth/edit backend)") /\
  (forall fields, json res = Some (JObj fields) -> field "error" fields = Some JNull ->
     error (saveLocally (Normal res) s) = JNull /\
     error (editWithGemini createObjectURL (Normal res) s) =
       JStr "Edit failed (check your /api/photobooth/edit backend)").
Proof.
  intros Hfile Hok.
  unfold saveLocally, editWithGemini, saveLocally_settle, editWithGemini_settle.
  rewrite Hfile, Hok. simpl. unfold isApiError, safeJson. split.
  - intros [-> | [(j & -> & Hj) | (fields & -> & Hfield)]]; simpl.
    + auto.
    + destruct j; simpl; auto. exfalso. eapply Hj. reflexivity.
    + rewrite Hfield. auto.
  - intros fields -> Hfield. simpl. rewrite Hfield. auto.
Qed.
End TestPageOperations.

(** ** The test page against the handlers *)

(** What a request with a file part leaves behind.  No path but the
    final one is changed.  Either the answer is 200, nothing is logged
    and the final path holds the upload; or the answer is 500 with the
    message of the one error logged, and the final path is as it was
    or holds a prefix of the upload, written before a [write]
    failed. *)
Lemma upload_file_part_cases {rt : Runtime}
    (form : FormData) (f : File) (w : Upload.World) :
  form_get "file" form = Some (FFile f) ->
  exists w',
    (forall q, q <> Upload.final_path w (FFile f) ->
       files (Upload.disk w') !! q = files (Upload.disk w) !! q) /\
    dirs (Upload.disk w) ⊆ dirs (Upload.disk w') /\
    ((Upload.POST (mkRequest (Normal form)) w =
        (Normal (NextResponse_json
                   (JObj [("url", JStr ("/uploads/" +:+
                      Upload.stored_name (Upload.clock w)
                        (Upload.entropy w (Upload.drawn w))
                        (Upload.extension (FFile f))))]) 200), w') /\
      Upload.console w' = Upload.console w /\
      files (Upload.disk w') !! Upload.final_path w (FFile f) = Some (octets f)) \/
     (exists e,
        Upload.POST (mkRequest (Normal form)) w =
          (Normal (NextResponse_json (error_json (message_or "Upload failed" e)) 500), w') /\
        Upload.console w' = Upload.console w ++ [e] /\
        (files (Upload.disk w') !! Upload.final_path w (FFile f)
           = files (Upload.disk w) !! Upload.final_path w (FFile f) \/
         exists written,
           files (Upload.disk w') !! Upload.final_path w (FFile f) = Some written /\
           written `prefix_of` octets f))).
Proof.
  intros Hget.
  assert (forall d1, mkdir_recursive (Upload.uploadsDir (Upload.cwd w)) (Upload.disk w)
                       = Normal d1 ->
                     files d1 = files (Upload.disk w) /\ dirs (Upload.disk w) ⊆ dirs d1)
    as Hmkdir.
  { intros d1 Hmk. unfold mkdir_recursive in Hmk.
    destruct (bool_decide _); [discriminate|]. injection Hmk as <-. simpl.
    split; [reflexivity|set_solver]. }
  destruct (upload_trace form f w Hget)
    as [(e & ->)|[(e & d1 & Hmk & ->)
       |(d1 & d2 & n & seen & d & Hmk & Hop & Hseen & Hsteps & Hfin & Hoth & Hdirs & _ & Hend)]].
  - eexists. (split; [|split]); revgoals.
    + right. exists e. split; [reflexivity|]. split; [reflexivity|]. left. reflexivity.
    + reflexivity.
    + reflexivity.
  - destruct (Hmkdir d1 Hmk) as [Hfiles Hsub].
    eexists. (split; [|split]); revgoals.
    + right. exists e. split; [reflexivity|]. split; [reflexivity|].
      left. simpl. rewrite Hfiles. reflexivity.
    + exact Hsub.
    + intros q _. simpl. rewrite Hfiles. reflexivity.
  - destruct (Hmkdir d1 Hmk) as [Hfiles Hsub].
    assert (concat (take n (chunks (octets f))) `prefix_of` octets f) as Hprefix.
    { exists (concat (drop n (chunks (octets f)))).
      rewrite <- concat_app, take_drop, concat_chunks. reflexivity. }
    destruct Hend as [[Hn ->]|(Hn & e & ->)].
    + eexists. (split; [|split]); revgoals.
      * left. split; [reflexivity|]. split; [reflexivity|].
        simpl. rewrite Hfin, Hn, firstn_all, concat_chunks. reflexivity.
      * simpl. rewrite Hdirs. exact Hsub.
      * exact Hoth.
    + eexists. (split; [|split]); revgoals.
      * right. exists e. split; [reflexivity|]. split; [reflexivity|].
        right. eexists. split; [exact Hfin|exact Hprefix].
      * simpl. rewrite Hdirs. exact Hsub.
      * exact Hoth.
Qed.

Section EndToEnd.
Context {rt : Runtime}.
Variable parse : bytes -> option JSON.
Variable stringify : JSON -> bytes.
Variable createObjectURL : bytes -> string.
Import EditTest.


(** X15.  Editing from the test page, end to end.  The page sends the
    selected file and the instruction to the edit handler and takes
    its reply.  With an empty instruction the error shown is "Missing
    instruction" and the provider is not called.  In general a reply
    of 200 ends with the result reference set to the object URL of the
    octets in the body and no error; any other reply ends with no
    result and the reply's own message as error. *)
Theorem edit_end_to_end (s : State) (f : File) (w : Edit.World) :
  file s = Some f ->
  exists resp w',
    Edit.POST (mkRequest (Normal (edit_form f (instruction s)))) w = (Normal resp, w') /\
    (instruction s = EmptyString ->
       error (editWithGemini createObjectURL
              (Normal (Wire.received parse stringify resp)) s) =
         JStr "Missing instruction" /\
       Edit.invocations w' = Edit.invocations w) /\
    (status resp = 200%Z ->
       exists b, body resp = RawBody b /\
         resultUrl (editWithGemini createObjectURL
                    (Normal (Wire.received parse stringify resp)) s) =
           JStr (createObjectURL b) /\
         error (editWithGemini createObjectURL
                (Normal (Wire.received parse stringify resp)) s) =
           JNull) /\
    (status resp <> 200%Z ->
       exists msg, body resp = JsonBody (error_json msg) /\
         resultUrl (editWithGemini createObjectURL
                    (Normal (Wire.received parse stringify resp)) s) =
           JNull /\
         error (editWithGemini createObjectURL
                (Normal (Wire.received parse stringify resp)) s) =
           JStr msg).
Proof.
  intros Hfile.
  destruct s as [selected text busy shown err]; simpl in Hfile; subst selected.
  simpl instruction.
  destruct text as [|c text].
  { exists (NextResponse_json (error_json "Missing instruction") 400), w.
    split; [reflexivity|]. split; [split; reflexivity|].
    split; [discriminate|]. intros _. exists "Missing instruction". repeat split. }
  set (text' := String c text).
  set (form := edit_form f text').
  destruct (edit_reply_cases (mkRequest (Normal form)) w)
    as [(msg & st & w' & Hrun & Hst & Hinv)
       |(form' & f' & key & [= <-] & [= <-] & Htext & Hkey & Hk)].
  - exists (NextResponse_json (error_json msg) st), w'. split; [exact Hrun|].
    split; [discriminate|].
    unfold editWithGemini, editWithGemini_settle. simpl file.
    assert (ok (Wire.received parse stringify (NextResponse_json (error_json msg) st)) = false)
      as Hok by (destruct Hst; subst st; reflexivity).
    rewrite Hok. simpl. split.
    + intros H200. destruct Hst; congruence.
    + intros _. exists msg. auto.
  - rewrite (POST_validated form f key w eq_refl Htext Hkey Hk).
    destruct (Edit.provider w _) as [response|e]; do 2 eexists; (split; [reflexivity|]);
      (split; [discriminate|]);
      unfold editWithGemini, editWithGemini_settle; simpl file.
    + destruct (relay_shape response) as [(payload & ct & ->)| ->]; simpl.
      * split; [eauto|]. intros Hne. congruence.
      * split; [discriminate|]. intros _. eauto.
    + simpl. split; [discriminate|]. intros _. eauto.
Qed.
End EndToEnd.

(** ** Camera page: the whole component *)
Section CameraPage.
Context {react : React}.
Import Photobooth.




Lemma same_countdown_refl (s : State) : same_countdown s s.
Proof. repeat split. Qed.

Lemma same_countdown_requestCamera (m : Booth.Media) (s : State) :
  same_countdown s (Booth.requestCamera m s).
Proof.
  unfold Booth.requestCamera.
  destruct m; [repeat split| |]; destruct (streamRef s); repeat split.
Qed.

Lemma same_countdown_booth_toggle (m : Booth.Media) (s : State) :
  same_countdown s (Booth.toggleCamera m s).
Proof.
  unfold Booth.toggleCamera.
  destruct (cameraActive s); [repeat split|apply same_countdown_requestCamera].
Qed.

(** The calls of [captureFrame], one after the other. *)
Lemma captureFrames_S (outcome : nat -> Booth.Shot * Z) (n : nat) (p : Booth.Page) :
  Booth.captureFrames outcome (S n) p =
    Booth.captureFrame (fst (outcome n)) (snd (outcome n)) (Booth.captureFrames outcome n p).
Proof.
  unfold Booth.captureFrames. rewrite seq_S, foldl_app. reflexivity.
Qed.

(** [captureFrame] never touches the countdown. *)
Lemma captureFrame_keeps_countdown
    (outcome : nat -> Booth.Shot * Z) (n : nat) (p : Booth.Page) :
  same_countdown (Booth.camera p) (Booth.camera (Booth.captureFrames outcome n p)).
Proof.
  induction n as [|n IH]; [apply same_countdown_refl|].
  rewrite captureFrames_S. eapply same_countdown_trans; [exact IH|].
  unfold Booth.captureFrame.
  destruct (videoRef _); [|apply same_countdown_refl].
  destruct (fst (outcome n)); repeat split.
Qed.

(** What an event of the page does to the countdown: what the same
    event does in the countdown's own model, up to the camera cells. *)
Lemma booth_handle_countdown (p : Booth.Page) (e : Booth.Event) :
  same_countdown
    match e with
    | Booth.StartCountdown => startCountdown (Booth.camera p)
    | Booth.Tick _ => tick (Booth.camera p)
    | _ => Booth.camera p
    end
    (Booth.camera (Booth.step p e)).
Proof.
  unfold Booth.step. simpl.
  eapply same_countdown_trans; [|apply same_countdown_render].
  destruct e; simpl; try apply same_countdown_refl.
  - unfold Booth.tick.
    eapply same_countdown_trans; [|apply captureFrame_keeps_countdown].
    apply same_countdown_refl.
  - apply same_countdown_booth_toggle.
  - destruct selected; apply same_countdown_refl.
  - destruct (bool_decide _); apply same_countdown_refl.
  - unfold Booth.editWithGemini. destruct (Booth.file p); [|apply same_countdown_refl].
    destruct fetched as [res|err]; [|apply same_countdown_refl].
    unfold Booth.editWithGemini_settle.
    destruct (negb _); [apply same_countdown_refl|].
    destruct (EditTest.blob res); apply same_countdown_refl.
Qed.

Lemma booth_step_counting (c : nat) (id : positive) (k : nat)
    (p : Booth.Page) (e : Booth.Event) :
  counting_at (S c) id k (Booth.camera p) ->
  match e with
  | Booth.Tick _ =>
      match c with
      | 0 => idle_at (k + updater_runs) (Booth.camera (Booth.step p e))
      | S c' => counting_at (S c') id k (Booth.camera (Booth.step p e))
      end
  | _ => counting_at (S c) id k (Booth.camera (Booth.step p e))
  end.
Proof.
  intros Hc. pose proof (booth_handle_countdown p e) as Hsame.
  destruct e; try (eapply same_countdown_counting; [exact Hsame|exact Hc]).
  - eapply same_countdown_counting; [exact Hsame|].
    eapply same_countdown_counting; [|exact Hc].
    apply (startCountdown_while_counting _ _ _ _ Hc).
  - destruct c as [|c'].
    + eapply same_countdown_idle; [exact Hsame|]. apply (tick_last id), Hc.
    + eapply same_countdown_counting; [exact Hsame|]. apply tick_counting, Hc.
Qed.

Lemma booth_step_idle (k : nat) (p : Booth.Page) (e : Booth.Event) :
  idle_at k (Booth.camera p) ->
  idle_at k (Booth.camera (Booth.step p e)) \/
  (e = Booth.StartCountdown /\
   streamRef (Booth.camera p) = true /\ videoRef (Booth.camera p) = true /\
   counting_at 5 (nextId (Booth.camera p)) k (Booth.camera (Booth.step p e))).
Proof.
  intros Hidle. pose proof (booth_handle_countdown p e) as Hsame.
  destruct e; try (left; eapply same_countdown_idle; [exact Hsame|exact Hidle]).
  - destruct (streamRef (Booth.camera p)) eqn:Hs;
      destruct (videoRef (Booth.camera p)) eqn:Hv;
      try solve [left; eapply same_countdown_idle; [exact Hsame|];
                 eapply same_countdown_idle; [|exact Hidle];
                 unfold startCountdown; rewrite Hs, Hv; repeat split].
    right. split; [reflexivity|]. split; [reflexivity|]. split; [reflexivity|].
    eapply same_countdown_counting; [exact Hsame|].
    apply startCountdown_idle; assumption.
  - left. eapply same_countdown_idle; [exact Hsame|].
    rewrite (tick_idle k _ Hidle). exact Hidle.
Qed.
End CameraPage.

Section CameraPageRuns.
Context {react : React}.
Import Photobooth.

Lemma booth_step_paced (calls secs : nat) (p : Booth.Page) (e : Booth.Event) :
  Booth.paced calls secs (Booth.camera p) ->
  Booth.paced (calls + Booth.starts [e]) (secs + Booth.seconds [e])
    (Booth.camera (Booth.step p e)).
Proof.
  intros [k [(Hidle & Hsecs & Hcalls)|(n & id & Hn & Hc & Hsecs & Hcalls)]].
  - destruct (booth_step_idle (updater_runs * k) p e Hidle) as [Hi|(-> & _ & _ & Hc)].
    + exists k. left. split; [exact Hi|]. lia.
    + exists k. right. exists 4, (nextId (Booth.camera p)). simpl.
      split; [lia|]. split; [exact Hc|]. lia.
  - pose proof (booth_step_counting n id (updater_runs * k) p e Hc) as Hstep.
    destruct e; simpl;
      try (exists k; right; exists n, id; split; [lia|]; split; [exact Hstep|]; lia).
    destruct n as [|n'].
    + exists (S k). left. rewrite Nat.mul_succ_r. split; [exact Hstep|]. lia.
    + exists k. right. exists n', id. split; [lia|]. split; [exact Hstep|]. lia.
Qed.

Lemma starts_cons (e : Booth.Event) (events : list Booth.Event) :
  Booth.starts (e :: events) = Booth.starts [e] + Booth.starts events.
Proof. destruct e; reflexivity. Qed.

Lemma seconds_cons (e : Booth.Event) (events : list Booth.Event) :
  Booth.seconds (e :: events) = Booth.seconds [e] + Booth.seconds events.
Proof. destruct e; reflexivity. Qed.

Lemma booth_run_paced (events : list Booth.Event) :
  forall (calls secs : nat) (p : Booth.Page),
    Booth.paced calls secs (Booth.camera p) ->
    Booth.paced (calls + Booth.starts events) (secs + Booth.seconds events)
      (Booth.camera (Booth.run p events)).
Proof.
  induction events as [|e events IH]; intros calls secs p Hp.
  - simpl. rewrite !Nat.add_0_r. exact Hp.
  - change (Booth.run p (e :: events)) with (Booth.run (Booth.step p e) events).
    rewrite starts_cons, seconds_cons, !Nat.add_assoc.
    apply IH, booth_step_paced, Hp.
Qed.

Lemma booth_initial_paced : Booth.paced 0 0 (Booth.camera Booth.initial).
Proof. exists 0. left. rewrite Nat.mul_0_r. repeat split; simpl; lia. Qed.

(** X16.  Whatever happens to the camera page, at most one interval is
    set.  While a countdown is active the count is between 1 and 5 and
    the one interval set is the one the ref holds; while none is
    active there is no count, no interval and nothing in the ref. *)
Theorem page_keeps_one_interval (events : list Booth.Event) :
  length (intervals (Booth.camera (Booth.run Booth.initial events))) <= 1 /\
  (isCountingDown (Booth.camera (Booth.run Booth.initial events)) = true ->
     exists n id,
       countdown (Booth.camera (Booth.run Booth.initial events)) = Some n /\
       1 <= n <= 5 /\
       intervals (Booth.camera (Booth.run Booth.initial events)) = [id] /\
       countdownTimer (Booth.camera (Booth.run Booth.initial events)) = Some id) /\
  (isCountingDown (Booth.camera (Booth.run Booth.initial events)) = false ->
     countdown (Booth.camera (Booth.run Booth.initial events)) = None /\
     intervals (Booth.camera (Booth.run Booth.initial events)) = [] /\
     countdownTimer (Booth.camera (Booth.run Booth.initial events)) = None).
Proof.
  destruct (booth_run_paced events 0 0 Booth.initial booth_initial_paced)
    as [k [((H1 & H2 & H3 & H4 & H5) & _)|(n & id & Hn & (H1 & H2 & H3 & H4 & H5) & _)]];
    rewrite H1, H2, H3, H4; simpl.
  - split; [lia|]. split; [discriminate|]. auto.
  - split; [lia|]. split; [|discriminate].
    intros _. exists (S n), id. repeat split; lia.
Qed.

End CameraPageRuns.

Section CameraCells.
Context {react : React}.
Import Photobooth.






End CameraCells.

Section CountdownPhoto.
Context {react : React}.
Import Photobooth.




End CountdownPhoto.

Section Presets.
Context {react : React}.
Context {rt : Runtime}.

Lemma captureFrame_keeps_preset
    (outcome : nat -> Booth.Shot * Z) (n : nat) (p : Booth.Page) :
  Booth.presetIndex (Booth.captureFrames outcome n p) = Booth.presetIndex p /\
  Booth.loading (Booth.captureFrames outcome n p) = Booth.loading p.
Proof.
  induction n as [|n [IH1 IH2]]; [auto|].
  rewrite captureFrames_S, <- IH1, <- IH2. unfold Booth.captureFrame.
  destruct (Photobooth.videoRef _); [|auto]. destruct (fst (outcome n)); auto.
Qed.

Lemma booth_step_preset (p : Booth.Page) (e : Booth.Event) :
  Booth.presetIndex p < length Booth.PRESETS ->
  Booth.presetIndex (Booth.step p e) < length Booth.PRESETS.
Proof.
  intros Hp. unfold Booth.step. simpl.
  destruct e; simpl; try exact Hp.
  - unfold Booth.tick. rewrite (proj1 (captureFrame_keeps_preset _ _ _)). exact Hp.
  - destruct selected; exact Hp.
  - case_bool_decide; simpl; assumption.
  - unfold Booth.editWithGemini. destruct (Booth.file p); [|exact Hp].
    destruct fetched as [res|err]; [|exact Hp].
    unfold Booth.editWithGemini_settle. destruct (negb _); [exact Hp|].
    destruct (EditTest.blob res); exact Hp.
Qed.

Lemma booth_run_preset (events : list Booth.Event) (p : Booth.Page) :
  Booth.presetIndex p < length Booth.PRESETS ->
  Booth.presetIndex (Booth.run p events) < length Booth.PRESETS.
Proof.
  revert p. induction events as [|e events IH]; intros p Hp; [exact Hp|].
  apply (IH (Booth.step p e)), booth_step_preset, Hp.
Qed.

(** With a file part and an instruction in place the edit handler never
    answers 400. *)
Lemma edit_with_file_and_instruction_not_400
    (form : FormData) (f : File) (w : Edit.World) (resp : NextResponse) :
  form_get "file" form = Some (FFile f) ->
  truthy (Edit.instruction_of form) = true ->
  fst (Edit.POST (mkRequest (Normal form)) w) = Normal resp ->
  status resp <> 400%Z.
Proof.
  intros Hfile Htext.
  destruct (Edit.GEMINI_API_KEY w) as [key|] eqn:Hkey.
  2: { unfold Edit.POST, try_catch, bind, lift, gets; simpl.
       rewrite Hfile; simpl. rewrite Htext; simpl. rewrite Hkey; simpl.
       intros [= <-]. discriminate. }
  destruct (truthy key) eqn:Hk.
  2: { unfold Edit.POST, try_catch, bind, lift, gets; simpl.
       rewrite Hfile; simpl. rewrite Htext; simpl. rewrite Hkey; simpl.
       rewrite Hk; simpl. intros [= <-]. discriminate. }
  rewrite (POST_validated form f key w Hfile Htext Hkey Hk).
  destruct (Edit.provider w _) as [response|e]; simpl; intros [= <-]; [|discriminate].
  destruct (relay_status response) as [-> | ->]; discriminate.
Qed.

(** X20.  The camera page always has an instruction to send.  Whatever
    happened on the page, the preset index points at one of the
    presets, the instruction is that preset's text and is not empty;
    with a file selected, the form the page sends holds that file and
    that text, and the edit handler never answers it with 400. *)
Theorem camera_page_sends_a_preset
    (events : list Booth.Event) (f : File) (w : Edit.World) :
  Booth.file (Booth.run Booth.initial events) = Some f ->
  exists label text,
    Booth.PRESETS !! Booth.presetIndex (Booth.run Booth.initial events) = Some (label, text) /\
    Booth.instruction (Booth.run Booth.initial events) = Some text /\
    text <> EmptyString /\
    Booth.edit_request (Booth.run Booth.initial events) =
      Some [("file", FFile f); ("instruction", FString text)] /\
    forall resp,
      fst (Edit.POST (mkRequest (Normal [("file", FFile f); ("instruction", FString text)])) w)
        = Normal resp ->
      status resp <> 400%Z.
Proof.
  intros Hfile.
  pose proof (booth_run_preset events Booth.initial ltac:(simpl; lia)) as Hidx.
  unfold Booth.edit_request, Booth.instruction. rewrite Hfile.
  destruct (Booth.presetIndex (Booth.run Booth.initial events)) as [|[|[|n]]];
    [| | |simpl in Hidx; lia];
    do 2 eexists; (split; [reflexivity|]); (split; [reflexivity|]);
    (split; [discriminate|]); (split; [reflexivity|]);
    intros resp; apply edit_with_file_and_instruction_not_400 with (f := f); reflexivity.
Qed.
End Presets.

(** ** Upload handler: where the file goes *)

Lemma split_app_separator (c : ascii) (a b : string) :
  split c (a +:+ String c b) = split c a ++ split c b.
Proof.
  induction a as [|x a IH].
  - simpl. rewrite Ascii.eqb_refl. reflexivity.
  - change (String x a +:+ String c b) with (String x (a +:+ String c b)).
    simpl split. rewrite IH.
    pose proof (split_not_nil c a) as Hne.
    destruct (Ascii.eqb x c); [reflexivity|].
    destruct (split c a) as [|h t]; [congruence|reflexivity].
Qed.

Lemma split_prefix_without_separator (c : ascii) (a s : string) :
  includes c a = false ->
  exists h t, split c s = h :: t /\ split c (a +:+ s) = (a +:+ h) :: t.
Proof.
  induction a as [|x a IH]; intros Ha.
  - change ("" +:+ s) with s.
    pose proof (split_not_nil c s). destruct (split c s) as [|h t]; [congruence|].
    exists h, t. auto.
  - simpl in Ha. apply orb_false_iff in Ha as [Hx Ha].
    destruct (IH Ha) as (h & t & Hs & Has). exists h, t. split; [exact Hs|].
    change (String x a +:+ s) with (String x (a +:+ s)).
    simpl split. rewrite Hx, Has. reflexivity.
Qed.

Lemma append_assoc (a b c : string) : (a +:+ b) +:+ c = a +:+ b +:+ c.
Proof.
  induction a as [|x a IH]; [reflexivity|].
  change (String x ((a +:+ b) +:+ c) = String x (a +:+ b +:+ c)).
  f_equal. exact IH.
Qed.

Lemma join_app (sep : string) (l1 l2 : list string) :
  l1 <> [] -> l2 <> [] ->
  join sep (l1 ++ l2) = join sep l1 +:+ sep +:+ join sep l2.
Proof.
  intros H1 H2. induction l1 as [|x l1 IH]; [congruence|].
  destruct l1 as [|y l1].
  - simpl. destruct l2; [congruence|reflexivity].
  - change (join sep ((x :: y :: l1) ++ l2))
      with (x +:+ sep +:+ join sep ((y :: l1) ++ l2)).
    rewrite IH by discriminate.
    change (join sep (x :: y :: l1)) with (x +:+ sep +:+ join sep (y :: l1)).
    rewrite !append_assoc. reflexivity.
Qed.

Lemma normalizeString_app (allow : bool) (l1 l2 kept : list string) :
  Path.normalizeString allow (l1 ++ l2) kept =
  Path.normalizeString allow l2 (rev (Path.normalizeString allow l1 kept)).
Proof.
  revert kept. induction l1 as [|seg l1 IH]; intros kept.
  - simpl. rewrite rev_involutive. reflexivity.
  - simpl. destruct (String.eqb seg "" || String.eqb seg "."); [apply IH|].
    destruct (String.eqb seg ".."); [|apply IH].
    destruct kept as [|top below]; [apply IH|].
    destruct (String.eqb top ".."); apply IH.
Qed.

Lemma normalizeString_plain (l kept : list string) :
  Forall plain kept ->
  Forall (fun seg => includes "/" seg = false) l ->
  Forall plain (Path.normalizeString false l kept).
Proof.
  revert kept. induction l as [|seg l IH]; intros kept Hkept Hl.
  - simpl. apply Forall_rev, Hkept.
  - inversion Hl as [|? ? Hseg Hl']; subst. simpl.
    destruct (String.eqb seg "") eqn:H0; simpl; [apply IH; assumption|].
    destruct (String.eqb seg ".") eqn:H1; simpl; [apply IH; assumption|].
    destruct (String.eqb seg "..") eqn:H2.
    + destruct kept as [|top below]; [apply IH; assumption|].
      inversion Hkept; subst.
      destruct (String.eqb top ".."); apply IH; assumption.
    + apply IH; [|assumption]. constructor; [|assumption].
      apply String.eqb_neq in H0, H1, H2. repeat split; assumption.
Qed.

(** Segments that are neither ["."] nor [".."] are all kept, the empty
    ones apart. *)
Lemma normalizeString_without_dots (allow : bool) (l kept : list string) :
  Forall (fun seg => seg <> "." /\ seg <> "..") l ->
  Path.normalizeString allow l kept =
  rev kept ++ filter (fun seg => truthy seg = true) l.
Proof.
  revert kept. induction l as [|seg l IH]; intros kept Hl.
  - simpl. rewrite app_nil_r. reflexivity.
  - inversion Hl as [|? ? [H1 H2] Hl']; subst. simpl.
    apply String.eqb_neq in H1, H2. rewrite H1, H2.
    destruct seg as [|a seg].
    + simpl. rewrite (IH kept Hl').
      rewrite filter_cons_False by (simpl; discriminate). reflexivity.
    + simpl. rewrite (IH _ Hl'). simpl.
      rewrite filter_cons_True by reflexivity.
      rewrite <- app_assoc. reflexivity.
Qed.

Lemma plain_filter (l : list string) :
  Forall plain l -> filter (fun seg => truthy seg = true) l = l.
Proof.
  induction 1 as [|seg l (H0 & _) _ IH]; [reflexivity|].
  rewrite filter_cons_True by (apply truthy_true, H0). rewrite IH. reflexivity.
Qed.

Lemma split_join_plain (l : list string) :
  Forall plain l -> l <> [] -> split "/" (join "/" l) = l.
Proof.
  induction 1 as [|seg l (_ & _ & _ & Hs) Hl IH]; [congruence|]. intros _.
  destruct l as [|y l].
  - simpl. apply split_without_separator, Hs.
  - change (join "/" (seg :: y :: l)) with (seg +:+ String "/"%char (join "/" (y :: l))).
    rewrite split_app_separator, (split_without_separator _ _ Hs), IH by discriminate.
    reflexivity.
Qed.

Lemma endsWith_app (c : ascii) (a b : string) :
  b <> "" -> endsWith c (a +:+ b) = endsWith c b.
Proof.
  intros Hb. induction a as [|x a IH]; [reflexivity|].
  change (String x a +:+ b) with (String x (a +:+ b)).
  destruct (a +:+ b) as [|y r] eqn:Hab.
  - destruct a as [|z a]; [change ("" +:+ b) with b in Hab; congruence|discriminate Hab].
  - rewrite endsWith_cons. exact IH.
Qed.

Lemma pieces_keep_absence (c d : ascii) (s : string) :
  includes d s = false ->
  Forall (fun piece => includes d piece = false) (split c s).
Proof.
  induction s as [|a r IH]; simpl; intros Hs.
  - constructor; [reflexivity|constructor].
  - apply orb_false_iff in Hs as [Ha Hr]. specialize (IH Hr).
    destruct (Ascii.eqb a c).
    + constructor; [reflexivity|exact IH].
    + destruct (split c r) as [|h t]; [constructor; [simpl; rewrite Ha; reflexivity|constructor]|].
      inversion IH; subst. constructor; [|assumption].
      simpl. rewrite Ha. assumption.
Qed.

Lemma dotless_is_no_dots (q : string) :
  includes "." q = false -> q <> "." /\ q <> "..".
Proof. intros Hq. split; intros ->; discriminate Hq. Qed.

(** In a text with one dot, which does not come first nor right after a
    separator, no piece between separators is ["."] or [".."]. *)
Lemma pieces_with_one_dot (A E : string) :
  includes "." A = false -> A <> "" -> endsWith "/" A = false ->
  includes "." E = false ->
  Forall (fun q => q <> "." /\ q <> "..") (split "/" (A +:+ String "." E)).
Proof.
  intros HA Hne Hend HE. induction A as [|x A IH]; [congruence|].
  simpl in HA. apply orb_false_iff in HA as [Hx HA].
  change (String x A +:+ String "." E) with (String x (A +:+ String "." E)).
  destruct A as [|y A].
  - change ("" +:+ String "." E) with (String "."%char E).
    simpl in Hend. simpl split. rewrite Hend. simpl.
    pose proof (pieces_keep_absence "/" "." E HE) as Hpieces.
    pose proof (split_not_nil "/" E) as HneE.
    destruct (split "/" E) as [|h t]; [congruence|].
    inversion Hpieces; subst. constructor.
    + split; intros [= -> _]; discriminate Hx.
    + eapply Forall_impl; [eassumption|]. intros q. apply dotless_is_no_dots.
  - rewrite endsWith_cons in Hend. specialize (IH HA ltac:(discriminate) Hend).
    remember (String y A +:+ String "." E) as rest eqn:Hrest. clear Hrest.
    simpl split. destruct (Ascii.eqb x "/").
    + constructor; [split; discriminate|exact IH].
    + destruct (split "/" rest) as [|h t];
        [constructor; [split; intros Heq; inversion Heq; subst; discriminate Hx|constructor]|].
      inversion IH; subst. constructor; [|assumption].
      split; intros Heq; inversion Heq; subst; discriminate Hx.
Qed.

Lemma pretty_N_go_includes (c : ascii) (x : N) (s : string) :
  (forall d, pretty_N_char d <> c) ->
  includes c (pretty_N_go x s) = includes c s.
Proof.
  intros Hc. revert s. induction (N.lt_wf_0 x) as [x _ IH]; intros s.
  destruct (decide (x = 0)%N) as [->|Hx]; [rewrite pretty_N_go_0; reflexivity|].
  rewrite pretty_N_go_step by lia.
  rewrite IH by (apply N.div_lt; lia). simpl.
  destruct (Ascii.eqb _ c) eqn:Heq; [|reflexivity].
  apply Ascii.eqb_eq in Heq. destruct (Hc _ Heq).
Qed.

Lemma pretty_Z_without (c : ascii) (z : Z) :
  (forall d, pretty_N_char d <> c) -> c <> "-"%char ->
  includes c (pretty z) = false.
Proof.
  intros Hc Hdash.
  assert (includes c "0" = false) as H0.
  { change (Ascii.eqb "0" c || false = false). rewrite orb_false_r.
    apply Ascii.eqb_neq. exact (Hc 0%N). }
  assert (forall p : positive, includes c (pretty p) = false) as Hpos.
  { intros p. unfold pretty, pretty_positive, pretty, pretty_N.
    destruct (decide _); [exact H0|]. rewrite pretty_N_go_includes by exact Hc. reflexivity. }
  destruct z as [|p|p]; unfold pretty, pretty_Z.
  - exact H0.
  - apply Hpos.
  - change (Ascii.eqb "-" c || includes c (pretty p) = false).
    rewrite Hpos, orb_false_r. apply Ascii.eqb_neq. congruence.
Qed.

Lemma digits_are_not_dot (d : N) : pretty_N_char d <> "."%char.
Proof. unfold pretty_N_char. repeat case_match; discriminate. Qed.

Lemma digits_are_not_slash (d : N) : pretty_N_char d <> "/"%char.
Proof. unfold pretty_N_char. repeat case_match; discriminate. Qed.

Lemma append_nil_r (s : string) : s +:+ "" = s.
Proof.
  induction s as [|a s IH]; [reflexivity|].
  change (String a (s +:+ "") = String a s). f_equal. exact IH.
Qed.

Lemma truthy_app_r (a b : string) : truthy b = true -> truthy (a +:+ b) = true.
Proof. destruct a; [auto|reflexivity]. Qed.

Lemma truthy_app_l (a b : string) : truthy a = true -> truthy (a +:+ b) = true.
Proof. destruct a; [discriminate|reflexivity]. Qed.

Lemma excluded_is_not_last (c : ascii) (s : string) :
  includes c s = false -> endsWith c s = false.
Proof.
  induction s as [|a [|b r] IH]; simpl; intros Hs; [reflexivity| |].
  - rewrite orb_false_r in Hs. exact Hs.
  - apply orb_false_iff in Hs as [_ Hs]. apply IH, Hs.
Qed.

Lemma join_plain_truthy (l : list string) :
  Forall plain l -> l <> [] -> truthy (join "/" l) = true.
Proof.
  intros Hl Hne. destruct Hl as [|seg l (H0 & _) Hl]; [congruence|].
  apply truthy_true in H0. destruct l; [exact H0|].
  change (join "/" (seg :: s :: l)) with (seg +:+ "/" +:+ join "/" (s :: l)).
  apply truthy_app_l, H0.
Qed.

(** An absolute path without a separator at the end whose segments all
    stay: it is the root followed by the segments. *)
Lemma normalize_absolute (p : string) (segs : list string) :
  Path.isAbsolute p = true -> endsWith "/" p = false ->
  Path.normalizeString false (split "/" p) [] = segs ->
  Forall plain segs -> segs <> [] ->
  Path.normalize p = "/" +:+ join "/" segs.
Proof.
  intros Habs Hend Hsegs Hplain Hne. unfold Path.normalize, Path.endsWithSep.
  destruct p as [|a p]; [discriminate|]. cbn [truthy].
  rewrite Habs, Hend. cbn [negb]. rewrite Hsegs, (join_plain_truthy _ Hplain Hne).
  rewrite append_nil_r. reflexivity.
Qed.

Lemma uploadsDir_shape (cwd : string) :
  Path.isAbsolute cwd = true ->
  exists segs,
    Forall plain segs /\ segs <> [] /\
    Upload.uploadsDir cwd = "/" +:+ join "/" segs.
Proof.
  intros Habs.
  set (before := Path.normalizeString false (split "/" cwd) []).
  assert (Forall plain before) as Hbefore.
  { apply normalizeString_plain; [constructor|].
    apply Forall_forall. intros seg Hin. apply list_elem_of_In in Hin.
    apply (split_pieces_without_separator "/" cwd), Hin. }
  exists (before ++ ["public"; "uploads"]).
  assert (Forall plain (before ++ ["public"; "uploads"])) as Hplain.
  { apply Forall_app. split; [exact Hbefore|].
    repeat constructor; discriminate. }
  split; [exact Hplain|]. split; [destruct before; discriminate|].
  unfold Upload.uploadsDir, Path.join_paths.
  destruct cwd as [|a cwd]; [discriminate|].
  rewrite !filter_cons_True by reflexivity. rewrite filter_nil.
  change (join "/" [String a cwd; "public"; "uploads"])
    with (String a cwd +:+ String "/"%char "public/uploads").
  apply normalize_absolute; try assumption.
  - rewrite endsWith_app by discriminate. reflexivity.
  - rewrite split_app_separator, normalizeString_app. fold before.
    change (split "/" "public/uploads") with ["public"; "uploads"].
    cbn. rewrite rev_involutive, <- app_assoc. reflexivity.
  - destruct before; discriminate.
Qed.

Lemma plain_without_dots (l : list string) :
  Forall plain l -> Forall (fun seg => seg <> "." /\ seg <> "..") l.
Proof.
  intros Hl. eapply Forall_impl; [exact Hl|]. intros seg (_ & H1 & H2 & _). auto.
Qed.

(** The pieces of a stored name: none is ["."] or [".."], and the first
    is not empty. *)
Lemma stored_name_pieces (now : Z) (uuid ext : string) :
  includes "/" uuid = false -> includes "." uuid = false -> includes "." ext = false ->
  Forall (fun q => q <> "." /\ q <> "..") (split "/" (Upload.stored_name now uuid ext)) /\
  exists q rest, split "/" (Upload.stored_name now uuid ext) = q :: rest /\ truthy q = true.
Proof.
  intros Hslash Hdot Hext. unfold Upload.stored_name. split.
  - change (pretty now +:+ "-" +:+ uuid +:+ "." +:+ ext)
      with (pretty now +:+ String "-"%char uuid +:+ String "."%char ext).
    rewrite <- append_assoc.
    apply pieces_with_one_dot; [| | |exact Hext].
    + rewrite includes_app, (pretty_Z_without "." now digits_are_not_dot) by discriminate.
      simpl. exact Hdot.
    + destruct (pretty now); discriminate.
    + rewrite endsWith_app by discriminate.
      apply excluded_is_not_last. simpl. exact Hslash.
  - destruct (split_prefix_without_separator "/" (pretty now)
                ("-" +:+ uuid +:+ "." +:+ ext)) as (h & t & Hs & ->).
    { apply pretty_Z_without; [apply digits_are_not_slash|discriminate]. }
    exists (pretty now +:+ h), t. split; [reflexivity|].
    apply truthy_app_r.
    change ("-" +:+ uuid +:+ "." +:+ ext) with (String "-"%char (uuid +:+ "." +:+ ext)) in Hs.
    simpl in Hs. destruct (split "/" (uuid +:+ "." +:+ ext)); injection Hs as <- _; reflexivity.
Qed.

(** Joined to a normalized directory, a stored name stays below it. *)
Lemma stored_path_shape (dirsegs : list string) (now : Z) (uuid ext : string) :
  Forall plain dirsegs -> dirsegs <> [] ->
  includes "/" uuid = false -> includes "." uuid = false -> includes "." ext = false ->
  exists segs tail,
    Forall plain segs /\ segs <> [] /\ (tail = "" \/ tail = "/") /\
    Path.join_paths ["/" +:+ join "/" dirsegs; Upload.stored_name now uuid ext] =
      ("/" +:+ join "/" dirsegs) +:+ "/" +:+ join "/" segs +:+ tail.
Proof.
  intros Hdir Hne Hslash Hdot Hext.
  destruct (stored_name_pieces now uuid ext Hslash Hdot Hext)
    as (Hpieces & q & rest & Hsplit & Hq).
  set (F := Upload.stored_name now uuid ext) in *.
  set (segs := filter (fun seg => truthy seg = true) (split "/" F)).
  assert (Forall plain segs) as Hsegs.
  { apply Forall_forall. intros seg Hin. unfold segs in Hin.
    apply list_elem_of_filter in Hin as [Htr Hin].
    rewrite Forall_forall in Hpieces. destruct (Hpieces seg Hin) as [H1 H2].
    repeat split; try assumption.
    - apply truthy_true, Htr.
    - apply list_elem_of_In in Hin. apply (split_pieces_without_separator "/" F), Hin. }
  assert (segs <> []) as Hsegs_ne.
  { unfold segs. rewrite Hsplit, filter_cons_True by exact Hq. discriminate. }
  assert (truthy F = true) as HF.
  { destruct F as [|a F']; [|reflexivity]. simpl in Hsplit. injection Hsplit as <- _.
    discriminate Hq. }
  exists segs, (if endsWith "/" F then "/" else "").
  split; [exact Hsegs|]. split; [exact Hsegs_ne|].
  split; [destruct (endsWith "/" F); auto|].
  unfold Path.join_paths.
  rewrite filter_cons_True by reflexivity.
  rewrite filter_cons_True by exact HF. rewrite filter_nil.
  change (join "/" ["/" +:+ join "/" dirsegs; F])
    with (("/" +:+ join "/" dirsegs) +:+ String "/"%char F).
  assert (Path.normalizeString false
            (split "/" (("/" +:+ join "/" dirsegs) +:+ String "/"%char F)) []
          = dirsegs ++ segs) as Hnorm.
  { rewrite split_app_separator.
    change (split "/" ("/" +:+ join "/" dirsegs))
      with ("" :: split "/" (join "/" dirsegs)).
    rewrite (split_join_plain _ Hdir Hne).
    change (Path.normalizeString false (("" :: dirsegs) ++ split "/" F) [])
      with (Path.normalizeString false (dirsegs ++ split "/" F) []).
    rewrite normalizeString_app.
    rewrite (normalizeString_without_dots false dirsegs []) by apply plain_without_dots, Hdir.
    rewrite (plain_filter _ Hdir). change (rev [] ++ dirsegs) with dirsegs.
    rewrite (normalizeString_without_dots false (split "/" F)) by exact Hpieces.
    rewrite rev_involutive. reflexivity. }
  assert (endsWith "/" (("/" +:+ join "/" dirsegs) +:+ String "/"%char F)
          = endsWith "/" F) as Hend.
  { rewrite endsWith_app by discriminate.
    destruct F as [|a F']; [discriminate HF|]. apply endsWith_cons. }
  assert (truthy (join "/" (dirsegs ++ segs)) = true) as Htruthy.
  { apply join_plain_truthy; [apply Forall_app; auto|].
    destruct dirsegs; [congruence|discriminate]. }
  unfold Path.normalize, Path.endsWithSep. cbv zeta.
  change (truthy (("/" +:+ join "/" dirsegs) +:+ String "/" F)) with true.
  change (Path.isAbsolute (("/" +:+ join "/" dirsegs) +:+ String "/" F)) with true.
  cbn [negb]. rewrite Hnorm, Htruthy, Hend.
  rewrite (join_app "/" dirsegs segs Hne Hsegs_ne).
  rewrite !append_assoc. reflexivity.
Qed.

Lemma extension_text_without_dot (file : FormDataEntryValue) :
  includes "." (or_else (Upload.last_segment file) "png") = false.
Proof.
  unfold or_else.
  destruct (Upload.last_segment file) as [seg|] eqn:Hseg; [|reflexivity].
  destruct (truthy seg); [|reflexivity].
  unfold Upload.last_segment, pop in Hseg. destruct file as [s|f]; [discriminate|].
  destruct (name f) as [n|]; [|discriminate]. simpl in Hseg.
  apply (split_pieces_without_separator "." n), last_In, Hseg.
Qed.

(** A request with a file part leaves every path but the final one as
    it was. *)
Lemma upload_other_files_untouched {rt : Runtime}
    (form : FormData) (f : File) (w : Upload.World) (q : string) :
  form_get "file" form = Some (FFile f) ->
  q <> Upload.final_path w (FFile f) ->
  files (Upload.disk (snd (Upload.POST (mkRequest (Normal form)) w))) !! q
    = files (Upload.disk w) !! q.
Proof.
  intros Hget Hq.
  destruct (upload_file_part_cases form f w Hget)
    as (w' & Hoth & _ & [(-> & _)|(e & -> & _)]); simpl; apply Hoth, Hq.
Qed.

Section StoredPath.
Context {rt : Runtime}.

(** X21.  Whatever the uploaded file is called, the handler changes no
    file outside the uploads directory.  With the server started in an
    absolute directory, an identifier without dot or separator and a
    lower-casing that brings in no dot, every path whose content
    differs after the request is the uploads directory followed by
    one or more segments, none of them empty, ["."] or [".."]. *)
Theorem uploads_stay_in_the_uploads_directory
    (form : FormData) (f : File) (w : Upload.World) (q : string) :
  form_get "file" form = Some (FFile f) ->
  Path.isAbsolute (Upload.cwd w) = true ->
  includes "/" (Upload.entropy w (Upload.drawn w)) = false ->
  includes "." (Upload.entropy w (Upload.drawn w)) = false ->
  (forall s, includes "." s = false -> includes "." (toLowerCase s) = false) ->
  files (Upload.disk (snd (Upload.POST (mkRequest (Normal form)) w))) !! q
    <> files (Upload.disk w) !! q ->
  exists segs tail,
    Forall plain segs /\ segs <> [] /\ (tail = "" \/ tail = "/") /\
    q = Upload.uploadsDir (Upload.cwd w) +:+ "/" +:+ join "/" segs +:+ tail.
Proof.
  intros Hget Habs Hslash Hdot Hlower Hchanged.
  destruct (decide (q = Upload.final_path w (FFile f))) as [->|Hq].
  2: { destruct Hchanged. apply (upload_other_files_untouched form f w q Hget Hq). }
  destruct (uploadsDir_shape (Upload.cwd w) Habs) as (dirsegs & Hdir & Hne & Hshape).
  unfold Upload.final_path. rewrite Hshape.
  apply stored_path_shape; try assumption.
  apply Hlower, extension_text_without_dot.
Qed.
End StoredPath.

Lemma lower_keeps_dots (a : ascii) :
  Ascii.eqb (Reference.lower a) "." = Ascii.eqb a ".".
Proof. destruct a as [[] [] [] [] [] [] [] []]; reflexivity. Qed.

Lemma lowercase_keeps_dots (s : string) :
  includes "." s = false -> includes "." (Reference.lowercase s) = false.
Proof.
  induction s as [|a s IH]; [reflexivity|].
  simpl. rewrite lower_keeps_dots. intros Hs.
  apply orb_false_iff in Hs as [-> Hs]. apply IH, Hs.
Qed.

(** ** Upload handler: what was on the disk stays *)
Section UploadKeeps.
Context {rt : Runtime}.

(** X22.  The handler removes nothing.  Whatever the request and
    however it ends, every directory that was on the disk before is
    there after, and every path that held a file still holds one. *)
Theorem upload_removes_nothing (req : NextRequest) (w : Upload.World) :
  dirs (Upload.disk w) ⊆ dirs (Upload.disk (snd (Upload.POST req w))) /\
  forall q, is_Some (files (Upload.disk w) !! q) ->
            is_Some (files (Upload.disk (snd (Upload.POST req w))) !! q).
Proof.
  destruct req as [[form|e]]; [|split; [reflexivity|auto]].
  destruct (form_get "file" form) as [[s|f]|] eqn:Hget.
  - unfold Upload.POST, try_catch, bind, lift, gets, ret, Upload.console_error, modify; simpl.
    rewrite Hget; simpl. destruct (truthy s); simpl; split; try reflexivity; auto.
  - destruct (upload_file_part_cases form f w Hget)
      as (w' & Hoth & Hdirs & [(-> & _ & Hfin)|(e & -> & _ & Hleft)]); simpl;
      (split; [exact Hdirs|]); intros q Hq;
      destruct (decide (q = Upload.final_path w (FFile f))) as [->|Hne];
      try (rewrite (Hoth q Hne); exact Hq).
    + rewrite Hfin. eauto.
    + destruct Hleft as [-> | (written & -> & _)]; eauto.
  - unfold Upload.POST, try_catch, bind, lift, gets, ret; simpl.
    rewrite Hget; simpl. split; [reflexivity|auto].
Qed.
End UploadKeeps.

(** ** Camera page: leaving the page *)
Section CameraPageUnmount.
Context {react : React}.
Import Photobooth.

Lemma booth_tick_without_interval (outcome : nat -> Booth.Shot * Z) (p : Booth.Page) :
  intervals (Booth.camera p) = [] -> Booth.tick outcome p = p.
Proof.
  intros Hnone. unfold Booth.tick, tick. rewrite Hnone. simpl.
  rewrite Nat.sub_diag. destruct p; reflexivity.
Qed.

Lemma booth_pass_without_interval
    (later : list (nat -> Booth.Shot * Z)) (p : Booth.Page) :
  intervals (Booth.camera p) = [] -> Booth.pass p later = p.
Proof.
  intros Hnone. induction later as [|outcome later IH]; [reflexivity|].
  unfold Booth.pass in *. simpl. rewrite booth_tick_without_interval; assumption.
Qed.

(** X23.  Leaving the page stops everything.  Whatever happened on the
    page, a running countdown included, after the cleanup of the mount
    effect no interval is set and no stream is held, and however many
    seconds pass afterwards [captureFrame] is not called and no cell
    changes: the selected file, the result and the errors stay as
    they were. *)
Theorem nothing_runs_after_unmount
    (events : list Booth.Event) (later : list (nat -> Booth.Shot * Z)) :
  intervals (Booth.camera (Booth.unmount (Booth.run Booth.initial events))) = [] /\
  streamRef (Booth.camera (Booth.unmount (Booth.run Booth.initial events))) = false /\
  Booth.pass (Booth.unmount (Booth.run Booth.initial events)) later
    = Booth.unmount (Booth.run Booth.initial events) /\
  captures (Booth.camera (Booth.pass (Booth.unmount (Booth.run Booth.initial events)) later))
    = captures (Booth.camera (Booth.run Booth.initial events)) /\
  Booth.file (Booth.pass (Booth.unmount (Booth.run Booth.initial events)) later)
    = Booth.file (Booth.run Booth.initial events).
Proof.
  assert (consistent (Booth.camera (Booth.run Booth.initial events))) as Hcons.
  { destruct (booth_run_paced events 0 0 Booth.initial booth_initial_paced)
      as [k [(Hidle & _)|(n & id & _ & Hcount & _)]];
      exists (updater_runs * k); eauto. }
  destruct (unmount_clears _ Hcons) as [Hnone Hcap].
  assert (intervals (Booth.camera (Booth.unmount (Booth.run Booth.initial events))) = [])
    as Hnone' by exact Hnone.
  rewrite (booth_pass_without_interval later _ Hnone').
  split; [exact Hnone|]. split.
  - unfold Booth.unmount, unmount, clear_pending. simpl.
    destruct (countdownTimer _); reflexivity.
  - split; [reflexivity|]. split; [exact Hcap|reflexivity].
Qed.
End CameraPageUnmount.

(** ** The properties above on sample requests *)

Lemma upload_without_file_changes_nothing_witness :
  Upload.POST (mkRequest (Normal [("file", FString ""); ("note", FString "x")]))
      Samples.upload_world =
    (Normal (NextResponse_json (error_json "Missing file") 400), Samples.upload_world).
Proof.
  apply (upload_without_file_changes_nothing
           [("file", FString ""); ("note", FString "x")] Samples.upload_world).
  reflexivity.
Defined.

Lemma upload_failure_reports_message_witness :
  Upload.POST (mkRequest (Throw (JsError "Failed to parse body as FormData.")))
      Samples.upload_world =
    (Normal (NextResponse_json (error_json "Failed to parse body as FormData.") 500),
     Upload.mkWorld "/app" 1700000000000 (fun _ => Samples.uuid) 0 (mkFS ∅ ∅) []
       [JsError "Failed to parse body as FormData."]).
Proof.
  exact (proj1 (upload_failure_reports_message
                  (mkRequest (Throw (JsError "Failed to parse body as FormData.")))
                  Samples.upload_world)
           (JsError "Failed to parse body as FormData.") eq_refl).
Defined.

Lemma upload_url_names_stored_file_witness :
  body (NextResponse_json
          (JObj [("url", JStr "/uploads/1700000000000-1b9d6bcd-bbfd-4b2d-9b5d-ab8dfbbd4bed.png")])
          200) =
    JsonBody (JObj [("url", JStr ("/uploads/" +:+ pretty 1700000000000%Z +:+ "-" +:+
                                  Samples.uuid +:+ "." +:+
                                  Upload.extension (FFile (Samples.photo "photo.png"))))]) /\
  Upload.drawn (snd (Upload.POST (Samples.upload_of "photo.png") Samples.upload_world)) = 1 /\
  Upload.console (snd (Upload.POST (Samples.upload_of "photo.png") Samples.upload_world)) = [].
Proof.
  apply (upload_url_names_stored_file
           (EditTest.upload_form (Samples.photo "photo.png"))
           (Samples.photo "photo.png") Samples.upload_world).
  - reflexivity.
  - vm_compute. reflexivity.
  - reflexivity.
Defined.

Lemma extension_is_text_after_last_dot_witness :
  Upload.extension (FFile (Samples.photo "holiday.2024.JPG")) = "jpg".
Proof.
  exact (proj1 (extension_is_text_after_last_dot (Samples.photo "holiday.2024.JPG"))
           "holiday.2024" "JPG" eq_refl ltac:(discriminate) eq_refl).
Defined.

Lemma stored_names_collide_only_on_same_uuid_witness :
  Samples.uuid = Samples.uuid /\ "png" = "png".
Proof.
  apply (stored_names_collide_only_on_same_uuid 1700000000000 Samples.uuid Samples.uuid
           "png" "png"); reflexivity.
Defined.

Lemma edit_calls_provider_at_most_once_witness :
  exists call,
    Edit.invocations
      (snd (Edit.POST (Samples.edit_of "photo.png" "Corporate headshot.")
              (Samples.edit_world (Some "key")
                 (Samples.answer [Samples.image_part (Some "image/png") "iVBORw=="])))) =
      [] ++ [call].
Proof.
  apply (proj1 (proj2 (edit_calls_provider_at_most_once (rt := Reference.runtime)
                         (Samples.edit_of "photo.png" "Corporate headshot.")
                         (Samples.edit_world (Some "key")
                            (Samples.answer [Samples.image_part (Some "image/png") "iVBORw=="]))
                         (mkResponse 200
                            [("Content-Type", "image/png"); ("Cache-Control", "no-store")]
                            (RawBody [x89; x50; x4e; x47]))
                         ltac:(vm_compute; reflexivity)))).
  left. reflexivity.
Defined.

Lemma provider_failure_is_reported_witness :
  fst (Edit.POST (Samples.edit_of "photo.png" "Corporate headshot.")
         (Edit.mkWorld (Some "key") (fun _ => Throw (JsError "quota exceeded")) [] [])) =
    Normal (NextResponse_json (error_json "quota exceeded") 500) /\
  Edit.invocations
    (snd (Edit.POST (Samples.edit_of "photo.png" "Corporate headshot.")
            (Edit.mkWorld (Some "key") (fun _ => Throw (JsError "quota exceeded")) [] []))) =
    [] ++ [Edit.upstream_call "key" (Samples.photo "photo.png") "Corporate headshot."] /\
  Edit.console
    (snd (Edit.POST (Samples.edit_of "photo.png" "Corporate headshot.")
            (Edit.mkWorld (Some "key") (fun _ => Throw (JsError "quota exceeded")) [] []))) =
    [] ++ [JsError "quota exceeded"].
Proof.
  apply (provider_failure_is_reported
           (EditTest.edit_form (Samples.photo "photo.png") "Corporate headshot.")
           (Samples.photo "photo.png") "key"
           (Edit.mkWorld (Some "key") (fun _ => Throw (JsError "quota exceeded")) [] [])
           (JsError "quota exceeded"));
    try reflexivity; discriminate.
Defined.

Lemma text_field_as_file_is_an_error_witness :
  exists resp e,
    fst (Edit.POST
           (mkRequest (Normal [("file", FString "photo.png");
                               ("instruction", FString "Corporate headshot.")]))
           (Samples.edit_world (Some "key") (Samples.answer []))) = Normal resp /\
    status resp = 500%Z /\
    Edit.invocations
      (snd (Edit.POST
              (mkRequest (Normal [("file", FString "photo.png");
                                  ("instruction", FString "Corporate headshot.")]))
              (Samples.edit_world (Some "key") (Samples.answer [])))) = [] /\
    Edit.console
      (snd (Edit.POST
              (mkRequest (Normal [("file", FString "photo.png");
                                  ("instruction", FString "Corporate headshot.")]))
              (Samples.edit_world (Some "key") (Samples.answer [])))) = [] ++ [e].
Proof.
  apply (text_field_as_file_is_an_error
           [("file", FString "photo.png"); ("instruction", FString "Corporate headshot.")]
           "photo.png" "key" (Samples.edit_world (Some "key") (Samples.answer [])));
    try reflexivity; discriminate.
Defined.

Lemma echoed_image_comes_back_witness :
  fst (Edit.POST (Samples.edit_of "photo.png" "Corporate headshot.")
         (Samples.edit_world (Some "key")
            (Samples.answer [Samples.image_part (Some "image/png") "iVBORw==";
                             Samples.text_part "Corporate headshot."]))) =
    Normal (mkResponse 200
              [("Content-Type", "image/png"); ("Cache-Control", "no-store")]
              (RawBody Samples.png_signature)).
Proof.
  refine (echoed_image_comes_back (rt := Reference.runtime)
            (EditTest.edit_form (Samples.photo "photo.png") "Corporate headshot.")
            (Samples.photo "photo.png") "key"
            (Samples.edit_world (Some "key")
               (Samples.answer [Samples.image_part (Some "image/png") "iVBORw==";
                                Samples.text_part "Corporate headshot."]))
            eq_refl _ eq_refl _ eq_refl eq_refl); discriminate.
Defined.

Lemma operations_end_settled_witness :
  EditTest.loading
    (EditTest.saveLocally (Throw (JsError "Failed to fetch")) Samples.page_with_result)
    = Some EditTest.upload /\
  EditTest.resultUrl
    (EditTest.saveLocally (Throw (JsError "Failed to fetch")) Samples.page_with_result)
    = JNull /\
  EditTest.error
    (EditTest.saveLocally (Throw (JsError "Failed to fetch")) Samples.page_with_result)
    = JNull.
Proof.
  destruct (operations_end_settled (fun _ => "blob:1") (Throw (JsError "Failed to fetch"))
              Samples.page_with_result) as (_ & _ & _ & _ & _ & Hselected).
  destruct Hselected as (_ & _ & Hsave & _); [discriminate|].
  apply Hsave. discriminate.
Defined.

Lemma failure_without_message_gets_fallback_witness :
  EditTest.error
    (EditTest.saveLocally (Normal (EditTest.mkResponse false None (Normal [])))
       Samples.page_with_result)
    = JStr "Upload failed" /\
  EditTest.error
    (EditTest.editWithGemini (fun _ => "blob:1")
       (Normal (EditTest.mkResponse false None (Normal []))) Samples.page_with_result)
    = JStr "Edit failed (check your /api/photobooth/edit backend)".
Proof.
  apply (proj1 (failure_without_message_gets_fallback (fun _ => "blob:1")
                  (EditTest.mkResponse false None (Normal [])) Samples.page_with_result
                  (Samples.photo "photo.png") eq_refl eq_refl)).
  left. reflexivity.
Defined.


Lemma edit_end_to_end_witness :
  exists resp w',
    Edit.POST
        (mkRequest (Normal (EditTest.edit_form (Samples.photo "photo.png")
                              (EditTest.instruction Samples.page_with_result))))
        (Samples.edit_world (Some "key")
           (Samples.answer [Samples.image_part (Some "image/png") "iVBORw=="]))
      = (Normal resp, w') /\
    (EditTest.instruction Samples.page_with_result = EmptyString ->
       EditTest.error
         (EditTest.editWithGemini (fun _ => "blob:1")
            (Normal (Wire.received (fun _ => None) (fun _ => []) resp))
            Samples.page_with_result)
         = JStr "Missing instruction" /\
       Edit.invocations w' = []) /\
    (status resp = 200%Z ->
       exists b, body resp = RawBody b /\
         EditTest.resultUrl
           (EditTest.editWithGemini (fun _ => "blob:1")
              (Normal (Wire.received (fun _ => None) (fun _ => []) resp))
              Samples.page_with_result)
           = JStr "blob:1" /\
         EditTest.error
           (EditTest.editWithGemini (fun _ => "blob:1")
              (Normal (Wire.received (fun _ => None) (fun _ => []) resp))
              Samples.page_with_result)
           = JNull) /\
    (status resp <> 200%Z ->
       exists msg, body resp = JsonBody (error_json msg) /\
         EditTest.resultUrl
           (EditTest.editWithGemini (fun _ => "blob:1")
              (Normal (Wire.received (fun _ => None) (fun _ => []) resp))
              Samples.page_with_result)
           = JNull /\
         EditTest.error
           (EditTest.editWithGemini (fun _ => "blob:1")
              (Normal (Wire.received (fun _ => None) (fun _ => []) resp))
              Samples.page_with_result)
           = JStr msg).
Proof.
  exact (edit_end_to_end (rt := Reference.runtime) (fun _ => None) (fun _ => [])
           (fun _ => "blob:1") Samples.page_with_result (Samples.photo "photo.png")
           (Samples.edit_world (Some "key")
              (Samples.answer [Samples.image_part (Some "image/png") "iVBORw=="]))
           eq_refl).
Defined.

Lemma page_keeps_one_interval_witness :
  exists n id,
    Photobooth.countdown
      (Booth.camera (Booth.run (react := Reference.development) Booth.initial
         [Booth.ToggleCamera Booth.Grants; Booth.StartCountdown;
          Booth.Tick (fun _ => (Booth.NoBlob, 0%Z)); Booth.StartCountdown])) = Some n /\
    1 <= n <= 5 /\
    Photobooth.intervals
      (Booth.camera (Booth.run (react := Reference.development) Booth.initial
         [Booth.ToggleCamera Booth.Grants; Booth.StartCountdown;
          Booth.Tick (fun _ => (Booth.NoBlob, 0%Z)); Booth.StartCountdown])) = [id] /\
    Photobooth.countdownTimer
      (Booth.camera (Booth.run (react := Reference.development) Booth.initial
         [Booth.ToggleCamera Booth.Grants; Booth.StartCountdown;
          Booth.Tick (fun _ => (Booth.NoBlob, 0%Z)); Booth.StartCountdown])) = Some id.
Proof.
  apply (proj1 (proj2 (page_keeps_one_interval (react := Reference.development)
                         [Booth.ToggleCamera Booth.Grants; Booth.StartCountdown;
                          Booth.Tick (fun _ => (Booth.NoBlob, 0%Z));
                          Booth.StartCountdown]))).
  reflexivity.
Defined.



Lemma camera_page_sends_a_preset_witness :
  exists label text,
    Booth.PRESETS
      !! Booth.presetIndex
           (Booth.run Booth.initial
              [Booth.PresetClicked 2; Booth.PresetClicked 7;
               Booth.FileSelected (Some (Samples.photo "photo.png"))])
      = Some (label, text) /\
    Booth.instruction
      (Booth.run Booth.initial
         [Booth.PresetClicked 2; Booth.PresetClicked 7;
          Booth.FileSelected (Some (Samples.photo "photo.png"))]) = Some text /\
    text <> EmptyString /\
    Booth.edit_request
      (Booth.run Booth.initial
         [Booth.PresetClicked 2; Booth.PresetClicked 7;
          Booth.FileSelected (Some (Samples.photo "photo.png"))]) =
      Some [("file", FFile (Samples.photo "photo.png")); ("instruction", FString text)] /\
    forall resp,
      fst (Edit.POST
             (mkRequest (Normal [("file", FFile (Samples.photo "photo.png"));
                                 ("instruction", FString text)]))
             (Samples.edit_world (Some "key") (Samples.answer [])))
        = Normal resp ->
      status resp <> 400%Z.
Proof.
  exact (camera_page_sends_a_preset (react := Reference.production) (rt := Reference.runtime)
           [Booth.PresetClicked 2; Booth.PresetClicked 7;
            Booth.FileSelected (Some (Samples.photo "photo.png"))]
           (Samples.photo "photo.png")
           (Samples.edit_world (Some "key") (Samples.answer [])) eq_refl).
Defined.

Lemma uploads_stay_in_the_uploads_directory_witness :
  exists segs tail,
    Forall plain segs /\ segs <> [] /\ (tail = "" \/ tail = "/") /\
    "/app/public/uploads/1700000000000-1b9d6bcd-bbfd-4b2d-9b5d-ab8dfbbd4bed.png" =
      Upload.uploadsDir "/app" +:+ "/" +:+ join "/" segs +:+ tail.
Proof.
  apply (uploads_stay_in_the_uploads_directory (rt := Reference.runtime)
           (EditTest.upload_form (Samples.photo "photo.png"))
           (Samples.photo "photo.png") Samples.upload_world
           "/app/public/uploads/1700000000000-1b9d6bcd-bbfd-4b2d-9b5d-ab8dfbbd4bed.png"
           eq_refl eq_refl eq_refl eq_refl lowercase_keeps_dots).
  vm_compute. discriminate.
Defined.
